(** * create_rss_feed.py: a shallow embedding and its verified properties

    The program scrapes a listing page, follows the links to the detail
    pages, extracts one record per page, sorts the records by date and
    writes an RSS 2.0 file.  The embedding follows [create_rss_feed.py]
    function by function.

    Conventions of the model:
    - Python [str] is [string]; characters are code points below 256.
    - A Python exception is a value of [exn]; a call that may raise returns
      [result A = exn + A].
    - Code with effects (HTTP requests, logging, file output) runs in the
      monad [M]: it threads a [state] holding the chronological trace of
      effects and the contents of the file system.
    - The third-party libraries (requests, BeautifulSoup, urllib, ftfy,
      PyRSS2Gen, the clock) are the fields of a [World]. *)

From Stdlib Require Import ZArith Lia List Ascii String Bool.
From Stdlib Require Import Sorting.Permutation Sorting.Sorted.
From stdpp Require Import base gmap strings list.

Open Scope string_scope.
Open Scope Z_scope.
Open Scope list_scope.

(** ** Exceptions and results *)

Inductive exn : Type :=
| KeyError (key : string)
    (* d[key] on a dict without that key *)
| AttributeError (msg : string)
| TypeError (msg : string)
    (* a TypeError whose message is a fixed text *)
| TypeError_lt
    (* '<' not supported between instances of ... : raised by the comparison
       of two sort keys one of which is None; which of the two operands is
       named first depends on the pair list.sort happens to compare *)
| ValueError_strptime (data_string : string)
    (* any ValueError raised by strptime on this input *)
| ValueError (msg : string)
    (* a ValueError of urljoin, such as 'Invalid IPv6 URL' *)
| Exception (msg : string)
    (* raise Exception(msg) *)
| RequestException (msg : string)
    (* whatever requests.get raises *)
| OSError (msg : string)
    (* open() on a path that cannot be opened for writing *)
| UnicodeEncodeError (msg : string).
    (* a character that the encoding of the output file cannot encode *)

Definition result (A : Type) : Type := (exn + A)%type.

Abbreviation ok := (@inr exn _).
Abbreviation throw := (@inl exn _).

Definition rbind {A B} (c : result A) (k : A -> result B) : result B :=
  match c with
  | inl e => inl e
  | inr a => k a
  end.

Declare Scope result_scope.
Delimit Scope result_scope with result.
Notation "x <-? c ;; k" := (rbind c (fun x => k))
  (at level 100, c at next level, right associativity) : result_scope.

(** ** Strings *)

Definition is_digit (c : ascii) : bool :=
  (48 <=? nat_of_ascii c)%nat && (nat_of_ascii c <=? 57)%nat.

Definition digit_value (c : ascii) : Z := Z.of_nat (nat_of_ascii c) - 48.

(** [sub in s] *)
Fixpoint contains (sub s : string) : bool :=
  String.prefix sub s ||
  match s with
  | EmptyString => false
  | String _ s' => contains sub s'
  end.

(** [sep.join(parts)] *)
Fixpoint join (sep : string) (parts : list string) : string :=
  match parts with
  | [] => ""
  | [p] => p
  | p :: rest => p +:+ sep +:+ join sep rest
  end.

(** The characters of a string from the last one to the first. *)
Definition backwards (s : string) : list ascii := rev (list_ascii_of_string s).

Definition newline : ascii := ascii_of_nat 10.

(** ** The [%] operator on a format string

    Only the conversion [%s] occurs in the program; every argument is a
    [str].  A right operand that is not a tuple counts as one argument. *)

Fixpoint py_format (fmt : string) (args : list string) : result string :=
  match fmt with
  | EmptyString =>
      match args with
      | [] => ok ""
      | _ :: _ => throw (TypeError "not all arguments converted during string formatting")
      end
  | String "%" (String "s" fmt') =>
      match args with
      | [] => throw (TypeError "not enough arguments for format string")
      | a :: args' => rbind (py_format fmt' args') (fun r => ok (a +:+ r))
      end
  | String c fmt' => rbind (py_format fmt' args) (fun r => ok (String c r))
  end.

(** ** Dictionaries

    [os.environ], the parsed [config.json] and the attributes of an HTML
    tag are only read: they are finite maps.  The [config] dict that
    [load_config] fills is iterated with [values()], which follows the
    insertion order: it is an association list. *)

Definition getitem (d : gmap string string) (k : string) : result string :=
  match d !! k with
  | Some v => ok v
  | None => throw (KeyError k)
  end.

(** [os.getenv(k, default)] *)
Definition getenv (environ : gmap string string) (k default : string) : string :=
  match environ !! k with
  | Some v => v
  | None => default
  end.

Definition dict : Type := list (string * string).

(** [d[k] = v] *)
Fixpoint dict_set (d : dict) (k v : string) : dict :=
  match d with
  | [] => [(k, v)]
  | (k', v') :: d' => if String.eqb k' k then (k, v) :: d' else (k', v') :: dict_set d' k v
  end.

(** [d[k]] *)
Fixpoint dict_get (d : dict) (k : string) : result string :=
  match d with
  | [] => throw (KeyError k)
  | (k', v') :: d' => if String.eqb k' k then ok v' else dict_get d' k
  end.

Definition values (d : dict) : list string := map snd d.

(** ** load_config

    [config_file] is the object read from [config.json], a JSON object
    whose values are strings (so that [str(value)] is [value] itself).
    The default of [os.getenv] is an argument: [config_file[k]] is
    evaluated, and may raise, whether the variable is set or not. *)

Definition config_keys : list string :=
  ["START_URL"; "OUTPUT_FILE"; "PROGRAM_TITLE"; "PROGRAM_URL"; "PROGRAM_DESC"].

Definition merge_key (environ config_file : gmap string string)
    (config : dict) (k : string) : result dict :=
  (default <-? getitem config_file k ;;
   ok (dict_set config k (getenv environ k default)))%result.

Fixpoint check_values (vs : list string) : result unit :=
  match vs with
  | [] => ok tt
  | value :: rest =>
      if (String.length value =? 0)%nat
      then (msg <-? py_format "Incorrect configuration for %s : %s" [value] ;;
            throw (Exception msg))%result
      else check_values rest
  end.

Definition load_config (environ config_file : gmap string string) : result dict :=
  (let config := [] in
   config <-? merge_key environ config_file config "START_URL" ;;
   config <-? merge_key environ config_file config "OUTPUT_FILE" ;;
   config <-? merge_key environ config_file config "PROGRAM_TITLE" ;;
   config <-? merge_key environ config_file config "PROGRAM_URL" ;;
   config <-? merge_key environ config_file config "PROGRAM_DESC" ;;
   _ <-? check_values (values config) ;;
   ok config)%result.

(** ** Regular expressions of the program

    Both patterns end in [$], which matches at the end of the string and
    just before a line feed that ends the string.  [re.search] may start
    anywhere and [.*] may be empty, so what precedes the fixed end of the
    pattern is unconstrained: a pattern matches when the string, or the
    string without its final line feed, ends with the fixed part. *)

Definition ascii_lower (c : ascii) : ascii :=
  if (65 <=? nat_of_ascii c)%nat && (nat_of_ascii c <=? 90)%nat
  then ascii_of_nat (nat_of_ascii c + 32)
  else c.

(** Equality of characters under [re.IGNORECASE]. *)
Definition eqb_ignorecase (c pat : ascii) : bool :=
  Ascii.eqb (ascii_lower c) (ascii_lower pat).

Fixpoint starts_with (pat l : list ascii) : bool :=
  match pat, l with
  | [], _ => true
  | p :: pat', c :: l' => Ascii.eqb c p && starts_with pat' l'
  | _ :: _, [] => false
  end.

(** [link_regex = re.compile('.*mp3$')], used through [search]. *)
Definition link_regex_search (href : string) : bool :=
  starts_with (backwards "mp3") (backwards href) ||
  starts_with (newline :: backwards "mp3") (backwards href).

(** The fixed part [_(\d{4})_(\d{2})_(\d{2})\.mp3] of [date_pattern], read
    from its last character, under [re.IGNORECASE]; the result is
    [groups()]. *)
Definition date_groups_backwards (r : list ascii) : option (list string) :=
  match r with
  | e3 :: e2 :: e1 :: dot :: d2 :: d1 :: u3 :: m2 :: m1 :: u2
      :: y4 :: y3 :: y2 :: y1 :: u1 :: _ =>
      if eqb_ignorecase e3 "3" && eqb_ignorecase e2 "p" && eqb_ignorecase e1 "m"
         && Ascii.eqb dot "." && is_digit d2 && is_digit d1
         && Ascii.eqb u3 "_" && is_digit m2 && is_digit m1
         && Ascii.eqb u2 "_" && is_digit y4 && is_digit y3 && is_digit y2
         && is_digit y1 && Ascii.eqb u1 "_"
      then Some [string_of_list_ascii [y1; y2; y3; y4];
                 string_of_list_ascii [m1; m2];
                 string_of_list_ascii [d1; d2]]
      else None
  | _ => None
  end.

(** [re.search(date_pattern, s, re.IGNORECASE)] *)
Definition date_search (s : string) : option (list string) :=
  match date_groups_backwards (backwards s) with
  | Some groups => Some groups
  | None =>
      match backwards s with
      | c :: r => if Ascii.eqb c newline then date_groups_backwards r else None
      | [] => None
      end
  end.

(** ** datetime.strptime(data, '%Y-%m-%d')

    The format is compiled to the regular expression
    [(\d\d\d\d)-(1[0-2]|0[1-9]|[1-9])-(3[0-1]|[1-2]\d|0[1-9]|[1-9]| [1-9])],
    matched at the start of the data; the whole data must be consumed and
    the three numbers must form a date of the calendar. *)

Record datetime : Type := {
  year : Z; month : Z; day : Z;
  hour : Z; minute : Z; second : Z; microsecond : Z;
  tzinfo : option string
    (* None: a naive datetime, which stands for local time *)
}.

Definition isleap (y : Z) : bool :=
  (y mod 4 =? 0) && (negb (y mod 100 =? 0) || (y mod 400 =? 0)).

Definition days_in_month (y m : Z) : Z :=
  if m =? 2 then (if isleap y then 29 else 28)
  else if (m =? 4) || (m =? 6) || (m =? 9) || (m =? 11) then 30
  else 31.

Definition in_range (lo hi c : ascii) : bool :=
  (nat_of_ascii lo <=? nat_of_ascii c)%nat && (nat_of_ascii c <=? nat_of_ascii hi)%nat.

(** Ordered alternation: the first alternative that lets the rest of the
    pattern (the continuation) match is taken. *)
Fixpoint first_match {R} (alternatives : list (option R)) : option R :=
  match alternatives with
  | [] => None
  | Some r :: _ => Some r
  | None :: rest => first_match rest
  end.

Definition re_month {R} (s : list ascii) (k : Z -> list ascii -> option R) : option R :=
  first_match
    [ match s with
      | c1 :: c2 :: r =>
          if Ascii.eqb c1 "1" && in_range "0" "2" c2 then k (10 + digit_value c2) r else None
      | _ => None
      end;
      match s with
      | c1 :: c2 :: r =>
          if Ascii.eqb c1 "0" && in_range "1" "9" c2 then k (digit_value c2) r else None
      | _ => None
      end;
      match s with
      | c1 :: r => if in_range "1" "9" c1 then k (digit_value c1) r else None
      | _ => None
      end ].

Definition re_day {R} (s : list ascii) (k : Z -> list ascii -> option R) : option R :=
  first_match
    [ match s with
      | c1 :: c2 :: r =>
          if Ascii.eqb c1 "3" && in_range "0" "1" c2 then k (30 + digit_value c2) r else None
      | _ => None
      end;
      match s with
      | c1 :: c2 :: r =>
          if in_range "1" "2" c1 && is_digit c2
          then k (10 * digit_value c1 + digit_value c2) r else None
      | _ => None
      end;
      match s with
      | c1 :: c2 :: r =>
          if Ascii.eqb c1 "0" && in_range "1" "9" c2 then k (digit_value c2) r else None
      | _ => None
      end;
      match s with
      | c1 :: r => if in_range "1" "9" c1 then k (digit_value c1) r else None
      | _ => None
      end;
      match s with
      | c1 :: c2 :: r =>
          if Ascii.eqb c1 " " && in_range "1" "9" c2 then k (digit_value c2) r else None
      | _ => None
      end ].

(** The match of the compiled format: year, month, day and what is left of
    the data after the match. *)
Definition strptime_match (s : list ascii) : option (Z * Z * Z * list ascii) :=
  match s with
  | y1 :: y2 :: y3 :: y4 :: dash1 :: r =>
      if is_digit y1 && is_digit y2 && is_digit y3 && is_digit y4 && Ascii.eqb dash1 "-"
      then
        let y := 1000 * digit_value y1 + 100 * digit_value y2
                 + 10 * digit_value y3 + digit_value y4 in
        re_month r (fun m r =>
          match r with
          | dash2 :: r =>
              if Ascii.eqb dash2 "-"
              then re_day r (fun d r => Some (y, m, d, r))
              else None
          | [] => None
          end)
      else None
  | _ => None
  end.

Definition strptime (data : option string) : result datetime :=
  match data with
  | None => throw (TypeError "strptime() argument 1 must be str, not None")
  | Some data_string =>
      match strptime_match (list_ascii_of_string data_string) with
      | Some (y, m, d, []) =>
          if (1 <=? y) && (d <=? days_in_month y m)
          then ok {| year := y; month := m; day := d;
                     hour := 0; minute := 0; second := 0; microsecond := 0;
                     tzinfo := None |}
          else throw (ValueError_strptime data_string)
      | _ => throw (ValueError_strptime data_string)
      end
  end.

(** ** Parsed HTML

    A parsed page is the sequence of its tags in document order, each with
    its name, its attributes and the text it contains: what [find_all],
    [find], [attrs] and [text] read. *)

Record Tag : Type := {
  name : string;
  attrs : gmap string string;
  text : string
}.

(** [soup.find_all(tag_name)] *)
Definition find_all (soup : list Tag) (tag_name : string) : list Tag :=
  filter (fun t => String.eqb (name t) tag_name = true) soup.

(** [soup.find_all(tag_name, attr=test)]: a tag without the attribute does
    not match; [test] is equality with a string or the search of a regular
    expression. *)
Definition attr_matches (attr : string) (test : string -> bool) (t : Tag) : bool :=
  match attrs t !! attr with
  | Some v => test v
  | None => false
  end.

Definition find_all_attr (soup : list Tag) (tag_name attr : string)
    (test : string -> bool) : list Tag :=
  filter (fun t => attr_matches attr test t = true) (find_all soup tag_name).

(** [soup.find(tag_name, attr=test)]: the first match, or None. *)
Definition find_attr (soup : list Tag) (tag_name attr : string)
    (test : string -> bool) : option Tag :=
  head (find_all_attr soup tag_name attr test).

(** ** Program records, feed objects *)

Record program : Type := {
  title : string;
  description : string;
  link : string;
  date : option string
}.

Record Guid : Type := { guid : string; isPermaLink : bool }.

Record RSSItem : Type := {
  item_title : string;
  item_link : string;
  item_description : string;
  item_guid : Guid;
  item_pubDate : datetime
}.

Record RSS2 : Type := {
  rss_title : string;
  rss_link : string;
  rss_description : string;
  rss_lastBuildDate : datetime;
  rss_items : list RSSItem
}.

(** ** Effects *)

Inductive level : Type := INFO | WARNING | CRITICAL.

(** One constructor per format string given to the logger, applied to the
    arguments of the format. *)
Inductive log_msg : Type :=
| Parsing (page_url : string)
| CannotFindAllData (title page_url : string)
| CannotDetermineDate (title page_url : string)
| ProgramsFetched (n : nat)
| ErrorOccurred (e : exn).

Inductive event : Type :=
| Get (url : string) (raised : option exn)
| Log (lvl : level) (msg : log_msg)
| Write (filename content : string).

Record state : Type := {
  trace : list event;
  files : gmap string string
}.

(** What the program does not define itself.  The answer of the network
    may depend on what happened before.  [urljoin] raises on some
    references, such as [http://[x].  [open_error filename] is the exception
    that [open(filename, "w")] raises, if it raises.  [write_xml rss] is
    the text that the serializer writes to the open file and the exception
    that ends it, if it raises: the text is then what was written before. *)
Record World : Type := {
  requests_get : list event -> string -> result string;
  BeautifulSoup : string -> list Tag;
  urljoin : string -> string -> result string;
  fix_encoding : string -> string;
  now : datetime;
  open_error : string -> option exn;
  write_xml : RSS2 -> string * option exn
}.

Definition M (A : Type) : Type := state -> result A * state.

Definition ret {A} (a : A) : M A := fun st => (ok a, st).

Definition raise {A} (e : exn) : M A := fun st => (throw e, st).

Definition bind {A B} (c : M A) (k : A -> M B) : M B :=
  fun st =>
    match c st with
    | (inl e, st') => (inl e, st')
    | (inr a, st') => k a st'
    end.

Definition lift {A} (r : result A) : M A := fun st => (r, st).

Declare Scope M_scope.
Delimit Scope M_scope with M.
Notation "x <- c ;; k" := (bind c (fun x => k))
  (at level 100, c at next level, right associativity) : M_scope.

Definition emit (ev : event) (st : state) : state :=
  {| trace := trace st ++ [ev]; files := files st |}.

Definition log (lvl : level) (msg : log_msg) : M unit :=
  fun st => (ok tt, emit (Log lvl msg) st).

(** [requests.get(url).text] *)
Definition http_get (w : World) (url : string) : M string :=
  fun st =>
    match requests_get w (trace st) url with
    | inl e => (inl e, emit (Get url (Some e)) st)
    | inr page => (inr page, emit (Get url None) st)
    end.

(** [open(filename, "w")]: it raises and leaves the files as they are, or
    it creates the file or empties the one that exists. *)
Definition open_w (w : World) (filename : string) : M unit :=
  fun st =>
    match open_error w filename with
    | Some e => (throw e, st)
    | None => (ok tt, {| trace := trace st; files := <[filename := ""]> (files st) |})
    end.

(** [rss.write_xml(f)] on the file opened at [filename]: what the
    serializer writes is in the file, whether it raises or not. *)
Definition write_to (w : World) (rss : RSS2) (filename : string) : M unit :=
  fun st =>
    let st' := {| trace := trace st ++ [Write filename (fst (write_xml w rss))];
                  files := <[filename := fst (write_xml w rss)]> (files st) |} in
    match snd (write_xml w rss) with
    | Some e => (throw e, st')
    | None => (ok tt, st')
    end.

(** [rss.write_xml(open(filename, "w"))]: the argument is evaluated
    first. *)
Definition write_file (w : World) (rss : RSS2) (filename : string) : M unit :=
  (_ <- open_w w filename ;; write_to w rss filename)%M.

(** ** get_programs *)

Definition program_page : string := "detail_emission.php".
Definition title_id : string := "titre".
Definition program_id : string := "emission".

Definition set_title (p : program) (v : string) : program :=
  {| title := v; description := description p; link := link p; date := date p |}.
Definition set_description (p : program) (v : string) : program :=
  {| title := title p; description := v; link := link p; date := date p |}.
Definition set_link (p : program) (v : string) : program :=
  {| title := title p; description := description p; link := v; date := date p |}.
Definition set_date (p : program) (v : option string) : program :=
  {| title := title p; description := description p; link := link p; date := v |}.

(** [soup.find(...).text] *)
Definition text_of (found : option Tag) : result string :=
  match found with
  | Some t => ok (text t)
  | None => throw (AttributeError "'NoneType' object has no attribute 'text'")
  end.

(** [soup.find(...).attrs[k]] *)
Definition attr_of (found : option Tag) (k : string) : result string :=
  match found with
  | Some t => getitem (attrs t) k
  | None => throw (AttributeError "'NoneType' object has no attribute 'attrs'")
  end.

(** Lines 71 to 88: the record of a detail page before the date. *)
Definition extract (w : World) (page_url : string) (soup_page : list Tag) : result program :=
  (let program := {| title := ""; description := ""; link := ""; date := None |} in
   program <-?
     (if (0 <? length (find_all_attr soup_page "div" "id" (String.eqb title_id)))%nat
      then (t <-? text_of (find_attr soup_page "div" "id" (String.eqb "titre")) ;;
            ok (set_title program (fix_encoding w t)))
      else ok program) ;;
   program <-?
     (if (0 <? length (find_all_attr soup_page "div" "id" (String.eqb program_id)))%nat
      then (t <-? text_of (find_attr soup_page "div" "id" (String.eqb "emission")) ;;
            ok (set_description program (fix_encoding w t)))
      else ok program) ;;
   program <-?
     (if (0 <? length (find_all_attr soup_page "a" "href" link_regex_search))%nat
      then (h <-? attr_of (find_attr soup_page "a" "href" link_regex_search) "href" ;;
            l <-? urljoin w page_url h ;;
            ok (set_link program l))
      else ok program) ;;
   ok program)%result.

Definition incomplete (p : program) : bool :=
  (String.length (title p) =? 0)%nat
  || (String.length (description p) =? 0)%nat
  || (String.length (link p) =? 0)%nat.

(** The body of the loop over the links of the listing page; the result is
    the list [programs] after the iteration. *)
Definition visit (w : World) (url : string) (page_link : Tag)
    (programs : list program) : M (list program) :=
  (href <- lift (getitem (attrs page_link) "href") ;;
   page_url <- lift (urljoin w url href) ;;
   if contains program_page page_url then
     _ <- log INFO (Parsing page_url) ;;
     content_page <- http_get w page_url ;;
     let soup_page := BeautifulSoup w content_page in
     program <- lift (extract w page_url soup_page) ;;
     if incomplete program then
       _ <- log WARNING (CannotFindAllData (title program) page_url) ;;
       ret programs
     else
       program <-
         match date_search (link program) with
         | Some groups => ret (set_date program (Some (join "-" groups)))
         | None =>
             _ <- log WARNING (CannotDetermineDate (title program) page_url) ;;
             ret program
         end ;;
       ret (programs ++ [program])
   else ret programs)%M.

Fixpoint visit_all (w : World) (url : string) (page_links : list Tag)
    (programs : list program) : M (list program) :=
  match page_links with
  | [] => ret programs
  | page_link :: rest =>
      (programs <- visit w url page_link programs ;;
       visit_all w url rest programs)%M
  end.

(** [a < b] on sort keys: a [str] or None. *)
Definition py_lt (a b : option string) : result bool :=
  match a, b with
  | Some x, Some y => ok (String.ltb x y)
  | _, _ => throw TypeError_lt
  end.

(** [sorted(programs, key=lambda p: p['date'], reverse=True)].  The sort
    of Python is stable, also with [reverse=True]: the result is the
    descending arrangement in which records with equal keys keep their
    order.  It is computed here by insertion from the right, with the
    comparison [<] of the keys, which raises on None; a list of fewer than
    two records is returned without any comparison. *)
Fixpoint insert_program (p : program) (sorted : list program) : result (list program) :=
  match sorted with
  | [] => ok [p]
  | q :: sorted' =>
      (less <-? py_lt (date p) (date q) ;;
       if (less : bool)
       then (r <-? insert_program p sorted' ;; ok (q :: r))
       else ok (p :: q :: sorted'))%result
  end.

Fixpoint sorted_by_date_reverse (programs : list program) : result (list program) :=
  match programs with
  | [] => ok []
  | p :: rest =>
      (sorted <-? sorted_by_date_reverse rest ;; insert_program p sorted)%result
  end.

Definition get_programs (w : World) (url : string) : M (list program) :=
  (content_main <- http_get w url ;;
   let soup_main := BeautifulSoup w content_main in
   programs <- visit_all w url (find_all soup_main "a") [] ;;
   _ <- log INFO (ProgramsFetched (length programs)) ;;
   lift (sorted_by_date_reverse programs))%M.

(** ** build_rss_feed *)

Definition rss_item_of (item : program) (item_date : datetime) : RSSItem :=
  {| item_title := title item;
     item_link := link item;
     item_description := description item;
     item_guid := {| guid := link item; isPermaLink := true |};
     item_pubDate := item_date |}.

Fixpoint build_items (items : list program) (rss_items : list RSSItem)
    : result (list RSSItem) :=
  match items with
  | [] => ok rss_items
  | item :: rest =>
      (item_date <-? strptime (date item) ;;
       build_items rest (rss_items ++ [rss_item_of item item_date]))%result
  end.

Definition build_rss_feed (w : World) (title link description : string)
    (items : list program) (filename : string) : M unit :=
  (rss_items <- lift (build_items items []) ;;
   let rss := {| rss_title := title;
                 rss_link := link;
                 rss_description := description;
                 rss_lastBuildDate := now w;
                 rss_items := rss_items |} in
   write_file w rss filename)%M.

(** ** main *)

Definition run (w : World) (environ config_file : gmap string string) : M unit :=
  (config <- lift (load_config environ config_file) ;;
   start_url <- lift (dict_get config "START_URL") ;;
   program_list <- get_programs w start_url ;;
   program_title <- lift (dict_get config "PROGRAM_TITLE") ;;
   program_url <- lift (dict_get config "PROGRAM_URL") ;;
   program_desc <- lift (dict_get config "PROGRAM_DESC") ;;
   output_file <- lift (dict_get config "OUTPUT_FILE") ;;
   build_rss_feed w program_title program_url program_desc program_list output_file)%M.

(** The [try ... except Exception] of [main]: it returns normally in both
    cases. *)
Definition main (w : World) (environ config_file : gmap string string)
    (st : state) : state :=
  match run w environ config_file st with
  | (inr _, st') => st'
  | (inl e, st') => emit (Log CRITICAL (ErrorOccurred e)) st'
  end.

(** ** A small site, for the examples *)

Fixpoint lookup_page {A} (url : string) (pages : list (string * A)) : option A :=
  match pages with
  | [] => None
  | (u, a) :: rest => if String.eqb u url then Some a else lookup_page url rest
  end.

(** A world serving [pages]: the text of a page is its own URL, which
    the parser maps to the tags of the page; a URL that is not served or is
    mapped to an exception raises.  Links are resolved against a single
    directory; a reference that opens an IPv6 address without closing it
    is refused.  Every path can be opened and the serializer does not
    raise. *)
Definition site (pages : list (string * result (list Tag))) : World :=
  {| requests_get := fun _ url =>
       match lookup_page url pages with
       | Some (inr _) => ok url
       | Some (inl e) => throw e
       | None => throw (RequestException "connection refused")
       end;
     BeautifulSoup := fun page =>
       match lookup_page page pages with
       | Some (inr soup) => soup
       | _ => []
       end;
     urljoin := fun _ href =>
       if String.prefix "http://[" href
       then throw (ValueError "Invalid IPv6 URL")
       else ok ("http://h/" +:+ href);
     fix_encoding := fun s => s;
     now := {| year := 2024; month := 1; day := 2; hour := 3; minute := 4; second := 5;
               microsecond := 6; tzinfo := None |};
     open_error := fun _ => None;
     write_xml := fun rss =>
       (join "|" (rss_title rss :: map (fun i => item_title i +:+ "@" +:+ guid (item_guid i)) (rss_items rss)),
        None) |}.



Definition anchor (href : string) : Tag :=
  {| name := "a"; attrs := {[ "href" := href ]}; text := "" |}.
Definition div (id contents : string) : Tag :=
  {| name := "div"; attrs := {[ "id" := id ]}; text := contents |}.

Definition detail (t d href : string) : result (list Tag) :=
  ok [div "titre" t; div "emission" d; anchor href].

Definition site1 : World :=
  site [("http://h/liste.php",
         ok [anchor "detail_emission.php?id=1"; anchor "about.php";
             anchor "detail_emission.php?id=2"; anchor "detail_emission.php?id=3"]);
        ("http://h/detail_emission.php?id=1", detail "one" "first" "x_2023_01_01.mp3");
        ("http://h/detail_emission.php?id=2", ok [div "titre" "two"; anchor "x_2023_02_02.mp3"]);
        ("http://h/detail_emission.php?id=3", detail "three" "third" "x_2023_07_04.mp3");
        ("http://h/detail_emission.php?id=4", detail "four" "fourth" "x_invalid.mp3")].

Definition config1 : gmap string string :=
  <["START_URL" := "http://h/liste.php"]> (<["OUTPUT_FILE" := "o.xml"]>
  (<["PROGRAM_TITLE" := "T"]> (<["PROGRAM_URL" := "U"]> (<["PROGRAM_DESC" := "D"]> ∅)))).

Definition st0 : state := {| trace := []; files := ∅ |}.

(** * Vocabulary of the properties, example inputs *)

(** The exception of the [%] operator when the format has more
    conversions than there are arguments. *)
Definition format_error : exn := TypeError "not enough arguments for format string".

(** [len(str(value)) != 0] *)
Definition nonempty (value : string) : bool := negb (String.length value =? 0)%nat.

(** The value [load_config] gives to a key. *)
Definition resolved (environ config_file : gmap string string) (k : string) : string :=
  match environ !! k with
  | Some v => v
  | None => default "" (config_file !! k)
  end.

(** A configuration file whose PROGRAM_DESC is empty. *)
Definition config_empty_desc : gmap string string :=
  <["START_URL" := "http://h/liste.php"]> (<["OUTPUT_FILE" := "o.xml"]>
  (<["PROGRAM_TITLE" := "T"]> (<["PROGRAM_URL" := "U"]> (<["PROGRAM_DESC" := ""]> ∅)))).

(** The value of the file is used for key [k]: [load_config] returns a
    configuration that maps [k] to it. *)
Definition file_value_used (environ config_file : gmap string string) (k : string) : Prop :=
  exists config v,
    config_file !! k = Some v /\
    load_config environ config_file = ok config /\
    dict_get config k = ok v.

(** What [extract] computes, in closed form: the record with the link
    [l], and the href that [urljoin] is called on, if there is one. *)
Definition extracted (w : World) (soup_page : list Tag) (l : string) : program :=
  {| title :=
       match find_attr soup_page "div" "id" (String.eqb "titre") with
       | Some t => fix_encoding w (text t)
       | None => ""
       end;
     description :=
       match find_attr soup_page "div" "id" (String.eqb "emission") with
       | Some t => fix_encoding w (text t)
       | None => ""
       end;
     link := l;
     date := None |}.

Definition selected_href (soup_page : list Tag) : option string :=
  match find_attr soup_page "a" "href" link_regex_search with
  | Some t => attrs t !! "href"
  | None => None
  end.

(** The link of the record: the selected href resolved against the URL
    of the page, or nothing. *)
Definition resolved_link (w : World) (page_url : string) (soup_page : list Tag)
    : result string :=
  match selected_href soup_page with
  | Some href => urljoin w page_url href
  | None => ok ""
  end.

Definition extraction (w : World) (page_url : string) (soup_page : list Tag)
    : result program :=
  match resolved_link w page_url soup_page with
  | inr l => ok (extracted w soup_page l)
  | inl e => throw e
  end.

(** A detail page without title whose audio link is a reference that
    [urljoin] refuses, before a complete page. *)
Definition site_refused : World :=
  site [("http://h/liste.php",
         ok [anchor "detail_emission.php?id=6"; anchor "detail_emission.php?id=3"]);
        ("http://h/detail_emission.php?id=6",
         ok [div "emission" "sixth"; anchor "http://[x.mp3"]);
        ("http://h/detail_emission.php?id=3", detail "three" "third" "x_2023_07_04.mp3")].

(** The characters of the ten decimal digits. *)
Definition decimal_digit (c : ascii) : Prop :=
  In c (list_ascii_of_string "0123456789").

(** The link ends in [_YYYY_MM_DD.mp3]: eight decimal digits, the letters
    of the extension in upper or lower case, and possibly one line feed
    after it; [d] is the text [YYYY-MM-DD] of these digits. *)
Definition dated_link (s d : string) : Prop :=
  exists (pre tail : string) (y1 y2 y3 y4 m1 m2 d1 d2 e1 e2 : ascii),
    s = pre +:+ string_of_list_ascii
          ["_"; y1; y2; y3; y4; "_"; m1; m2; "_"; d1; d2; "."; e1; e2; "3"]%char
        +:+ tail
    /\ (tail = "" \/ tail = String newline "")
    /\ Forall decimal_digit [y1; y2; y3; y4; m1; m2; d1; d2]
    /\ (e1 = "m" \/ e1 = "M")%char /\ (e2 = "p" \/ e2 = "P")%char
    /\ d = string_of_list_ascii [y1; y2; y3; y4; "-"; m1; m2; "-"; d1; d2]%char.

(** The state after the effects [evs], none of which writes a file. *)
Definition emits (evs : list event) (st : state) : state :=
  {| trace := trace st ++ evs; files := files st |}.

(** A listing page with an anchor that has no href. *)
Definition anchor_without_href : Tag :=
  {| name := "a"; attrs := {[ "name" := "top" ]}; text := "top" |}.

(** A site whose listing page has such an anchor between two links. *)
Definition site_without_href : World :=
  site [("http://h/liste.php",
         ok [anchor "detail_emission.php?id=1"; anchor_without_href;
             anchor "detail_emission.php?id=3"]);
        ("http://h/detail_emission.php?id=1", detail "one" "first" "x_2023_01_01.mp3");
        ("http://h/detail_emission.php?id=3", detail "three" "third" "x_2023_07_04.mp3")].

(** [starts_with] under [re.IGNORECASE]. *)
Fixpoint starts_with_ignorecase (pat l : list ascii) : bool :=
  match pat, l with
  | [], _ => true
  | p :: pat', c :: l' => eqb_ignorecase c p && starts_with_ignorecase pat' l'
  | _ :: _, [] => false
  end.

(** What [link_regex] would match if it were compiled with
    [re.IGNORECASE]: the hrefs that name an mp3 file in any case. *)
Definition link_regex_search_ignorecase (href : string) : bool :=
  starts_with_ignorecase (backwards "mp3") (backwards href) ||
  starts_with_ignorecase (newline :: backwards "mp3") (backwards href).

(** The href ends in [MP3], [Mp3] or [mP3]. *)
Definition ends_in_uppercase_variant (href : string) : Prop :=
  exists (pre : string) (e1 e2 : ascii),
    href = pre +:+ string_of_list_ascii [e1; e2; "3"%char] /\
    eqb_ignorecase e1 "m" = true /\ eqb_ignorecase e2 "p" = true /\
    (e1 <> "m"%char \/ e2 <> "p"%char).

(** A detail page whose audio link has an upper-case extension. *)
Definition site_uppercase : World :=
  site [("http://h/liste.php", ok [anchor "detail_emission.php?id=5"]);
        ("http://h/detail_emission.php?id=5",
         ok [div "titre" "five"; div "emission" "fifth";
             anchor "liste.php"; anchor "x_2023_07_04.MP3"])].

(** The exception of [strptime] on None. *)
Definition strptime_none_error : exn :=
  TypeError "strptime() argument 1 must be str, not None".

(** The exceptions of the parsing of a timestamp. *)
Definition raised_by_strptime (e : exn) : Prop :=
  e = strptime_none_error \/ exists data_string, e = ValueError_strptime data_string.

(** Two records as the extractor builds them, with and without a date. *)
Definition dated_item : program :=
  {| title := "three"; description := "third";
     link := "http://h/x_2023_07_04.mp3"; date := Some "2023-07-04" |}.

Definition undated_item : program :=
  {| title := "four"; description := "fourth";
     link := "http://h/x_invalid.mp3"; date := None |}.

(** The character of a decimal digit, and the digits of a number on two
    and on four positions. *)
Definition digit_char (n : Z) : ascii := ascii_of_nat (Z.to_nat n + 48).

Definition two_digits (n : Z) : list ascii :=
  [digit_char (n / 10); digit_char (n mod 10)].

Definition four_digits (n : Z) : list ascii :=
  [digit_char (n / 1000); digit_char (n / 100 mod 10);
   digit_char (n / 10 mod 10); digit_char (n mod 10)].

(** The text [YYYY-MM-DD] of three numbers, padded with zeros. *)
Definition isoformat (y m d : Z) : string :=
  string_of_list_ascii (four_digits y ++ "-"%char :: two_digits m ++ "-"%char :: two_digits d).

(** A day of the calendar. *)
Definition calendar_date (y m d : Z) : Prop :=
  1 <= y <= 9999 /\ 1 <= m <= 12 /\ 1 <= d <= days_in_month y m.

(** [datetime(y, m, d, 0, 0, 0)]: the local midnight of the day, a
    datetime without time zone. *)
Definition midnight (y m d : Z) : datetime :=
  {| year := y; month := m; day := d; hour := 0; minute := 0; second := 0;
     microsecond := 0; tzinfo := None |}.

(** The state after [content] has been written to the file
    [filename]. *)
Definition written (filename content : string) (st : state) : state :=
  {| trace := trace st ++ [Write filename content];
     files := <[filename := content]> (files st) |}.

(** The feed entry of a record dated [y]-[m]-[d]. *)
Definition entry_of (item : program) (day : Z * Z * Z) : RSSItem :=
  let '(y, m, d) := day in
  {| item_title := title item;
     item_link := link item;
     item_description := description item;
     item_guid := {| guid := link item; isPermaLink := true |};
     item_pubDate := midnight y m d |}.

(** The record has the date [y]-[m]-[d], a day of the calendar. *)
Definition dated_on (item : program) (day : Z * Z * Z) : Prop :=
  let '(y, m, d) := day in
  date item = Some (isoformat y m d) /\ calendar_date y m d.


(** The texts matched by [\d{4}-\d{2}-\d{2}]. *)
Definition is_date_text (s : string) : Prop :=
  exists y m d, 0 <= y <= 9999 /\ 0 <= m <= 99 /\ 0 <= d <= 99 /\ s = isoformat y m d.

(** Year, month and day read from such a text. *)
Definition ymd_of (s : string) : Z * Z * Z :=
  match list_ascii_of_string s with
  | [y1; y2; y3; y4; _; m1; m2; _; d1; d2] =>
      (1000 * digit_value y1 + 100 * digit_value y2 + 10 * digit_value y3 + digit_value y4,
       10 * digit_value m1 + digit_value m2,
       10 * digit_value d1 + digit_value d2)
  | _ => (0, 0, 0)
  end.

(** The order of the calendar. *)
Definition chronologically_before (a b : Z * Z * Z) : Prop :=
  let '(y, m, d) := a in
  let '(y', m', d') := b in
  y < y' \/ (y = y' /\ (m < m' \/ (m = m' /\ d < d'))).

(** The record [p] is dated after the record [q]. *)
Definition more_recent (p q : program) : Prop :=
  match date p, date q with
  | Some a, Some b => chronologically_before (ymd_of b) (ymd_of a)
  | _, _ => False
  end.

(** The record has a date. *)
Definition dated (p : program) : Prop := date p <> None.

(** [p] may stand before [q] in the result: [p < q] is false. *)
Definition not_before (p q : program) : Prop := py_lt (date p) (date q) = ok false.

(** The date of the record is a text [YYYY-MM-DD]. *)
Definition has_date_text (p : program) : Prop :=
  exists s, date p = Some s /\ is_date_text s.

(** No request of [evs] raised; no effect of [evs] writes a file. *)
Definition no_failed_get (evs : list event) : Prop :=
  forall url e, ~ In (Get url (Some e)) evs.

Definition no_write (evs : list event) : Prop :=
  forall filename content, ~ In (Write filename content) evs.

(** A computation that writes no file and that a failed request ends: the
    exception of the request is its result and the request is its last
    effect. *)
Definition fetch_only {A} (c : M A) : Prop :=
  forall st, exists evs,
    snd (c st) = emits evs st
    /\ no_write evs
    /\ forall url e, In (Get url (Some e)) evs ->
         fst (c st) = throw e
         /\ exists pre, evs = pre ++ [Get url (Some e)] /\ no_failed_get pre.

(** A site whose second detail page cannot be fetched. *)
Definition site_down : World :=
  site [("http://h/liste.php",
         ok [anchor "detail_emission.php?id=1"; anchor "detail_emission.php?id=2";
             anchor "detail_emission.php?id=3"]);
        ("http://h/detail_emission.php?id=1", detail "one" "first" "x_2023_01_01.mp3");
        ("http://h/detail_emission.php?id=2", throw (RequestException "timed out"));
        ("http://h/detail_emission.php?id=3", detail "three" "third" "x_2023_07_04.mp3")].

(** The URLs requested by the effects [evs], in order. *)
Fixpoint requested (evs : list event) : list string :=
  match evs with
  | [] => []
  | Get url _ :: rest => url :: requested rest
  | _ :: rest => requested rest
  end.

(** The anchor has an href that [urljoin] resolves against [url]. *)
Definition resolvable (w : World) (url : string) (page_link : Tag) : Prop :=
  exists href page_url,
    attrs page_link !! "href" = Some href /\ urljoin w url href = ok page_url.

(** The absolute URL of such an anchor of the page at [url]. *)
Definition page_url_of (w : World) (url : string) (page_link : Tag) : string :=
  match urljoin w url (default "" (attrs page_link !! "href")) with
  | inr page_url => page_url
  | inl _ => ""
  end.

(** The URLs of the detail pages that the anchors lead to, in the order
    of the anchors. *)
Definition detail_urls (w : World) (url : string) (page_links : list Tag) : list string :=
  List.filter (contains program_page) (map (page_url_of w url) page_links).

(** A record as the loop appends it: nothing empty, and the date that
    the pattern reads in the link, if any. *)
Definition well_formed_record (p : program) : Prop :=
  title p <> "" /\ description p <> "" /\ link p <> ""
  /\ date p = option_map (join "-") (date_search (link p)).

(** [p] is not dated before [q]; both have a date [YYYY-MM-DD]. *)
Definition not_older (p q : program) : Prop :=
  has_date_text p /\ has_date_text q /\ ~ more_recent q p.

(** A site with two complete detail pages, the second of which has a
    file name without a date. *)
Definition site_undated : World :=
  site [("http://h/liste.php",
         ok [anchor "detail_emission.php?id=1"; anchor "detail_emission.php?id=4"]);
        ("http://h/detail_emission.php?id=1", detail "one" "first" "x_2023_01_01.mp3");
        ("http://h/detail_emission.php?id=4", detail "four" "fourth" "x_invalid.mp3")].

(** The record has the date [y]-[m]-[d], written with four, two and two
    digits; the numbers need not name a day of the calendar. *)
Definition has_digits_of (item : program) (day : Z * Z * Z) : Prop :=
  let '(y, m, d) := day in
  date item = Some (isoformat y m d)
  /\ 0 <= y <= 9999 /\ 0 <= m <= 99 /\ 0 <= d <= 99.

(** [calendar_date] on a triple. *)
Definition is_calendar_day (day : Z * Z * Z) : Prop :=
  let '(y, m, d) := day in calendar_date y m d.

(** The feed entry [entry] is the one built for the record [item]. *)
Definition entry_for (item : program) (entry : RSSItem) : Prop :=
  item_title entry = title item
  /\ item_link entry = link item
  /\ item_description entry = description item
  /\ item_guid entry = {| guid := link item; isPermaLink := true |}
  /\ strptime (date item) = ok (item_pubDate entry).

(** An effect that is a request or a log below the critical level. *)
Definition quiet (ev : event) : Prop :=
  match ev with
  | Get _ _ => True
  | Log lvl _ => lvl <> CRITICAL
  | Write _ _ => False
  end.

(** A computation that changes the state by effects that satisfy [P]
    only. *)
Definition emits_only (P : event -> Prop) {A} (c : M A) : Prop :=
  forall st, exists evs, snd (c st) = emits evs st /\ Forall P evs.

(** * Properties *)

(** ** The configuration *)

Lemma check_values_spec (vs : list string) :
  check_values vs = if forallb nonempty vs then ok tt else throw format_error.
Proof.
  induction vs as [|value rest IH]; [reflexivity|].
  destruct value as [|c value]; [reflexivity|].
  simpl. exact IH.
Qed.

Lemma load_config_spec (environ config_file : gmap string string) :
  (forall k, In k config_keys -> is_Some (config_file !! k)) ->
  load_config environ config_file =
    if forallb nonempty (map (resolved environ config_file) config_keys)
    then ok (map (fun k => (k, resolved environ config_file k)) config_keys)
    else throw format_error.
Proof.
  intros Hfile.
  assert (H : forall k, In k config_keys ->
            getitem config_file k = ok (default "" (config_file !! k))).
  { intros k Hk. destruct (Hfile k Hk) as [v Hv].
    unfold getitem. rewrite Hv. reflexivity. }
  unfold load_config, merge_key.
  rewrite !H by (simpl; tauto). cbn [rbind].
  cbn [dict_set String.eqb Ascii.eqb Bool.eqb].
  rewrite check_values_spec. unfold resolved, getenv, values, config_keys.
  cbn [map snd].
  match goal with |- context [forallb nonempty ?l] => destruct (forallb nonempty l) end;
    reflexivity.
Qed.

Ltac each_key :=
  let k := fresh "k" in
  let Hk := fresh "Hk" in
  intros k Hk; unfold config_keys in Hk; cbn [In] in Hk;
  repeat (destruct Hk as [<-|Hk]); [..|contradiction].

Lemma forallb_nonempty_resolved (environ config_file : gmap string string) :
  forallb nonempty (map (resolved environ config_file) config_keys) = true <->
  forall k, In k config_keys -> resolved environ config_file k <> "".
Proof.
  rewrite forallb_forall. split.
  - intros H k Hk Heq. specialize (H _ (in_map _ _ _ Hk)).
    rewrite Heq in H. discriminate.
  - intros H v Hv. apply in_map_iff in Hv as (k & <- & Hk).
    specialize (H k Hk). destruct (resolved environ config_file k); [congruence|reflexivity].
Qed.

Lemma dict_get_resolved (f : string -> string) (k : string) :
  In k config_keys -> dict_get (map (fun k => (k, f k)) config_keys) k = ok (f k).
Proof. revert k. each_key; reflexivity. Qed.

(** C1 (the code departs from the claim).  With a configuration whose
    PROGRAM_DESC is empty and no environment variable, [load_config] does
    fail, and before any request, but not with the configuration error it
    builds: the format has two conversions and is given the value alone, so
    the [%] operator raises TypeError, whose message names no key; [main]
    logs that error and nothing else happens. *)
Theorem load_config_empty_value_raises_format_error :
  load_config ∅ config_empty_desc
    = throw (TypeError "not enough arguments for format string")
  /\ (forall msg, load_config ∅ config_empty_desc <> throw (Exception msg))
  /\ contains "PROGRAM_DESC" "not enough arguments for format string" = false
  /\ main site1 ∅ config_empty_desc st0
     = {| trace := [Log CRITICAL (ErrorOccurred format_error)]; files := ∅ |}.
Proof.
  assert (H : load_config ∅ config_empty_desc = throw format_error)
    by (vm_compute; reflexivity).
  split; [exact H|]. split; [intros msg; rewrite H; discriminate|].
  split; [reflexivity|].
  unfold main, run, bind, lift. rewrite H. reflexivity.
Qed.

(** C7, counterexample.  PROGRAM_DESC is set to the empty string in the
    environment and to "D" in the file: the value of the file is not
    used, the empty string is, and [load_config] raises. *)
Lemma empty_environment_value_is_not_ignored :
  let environ : gmap string string := {[ "PROGRAM_DESC" := "" ]} in
  environ !! "PROGRAM_DESC" = Some ""
  /\ config1 !! "PROGRAM_DESC" = Some "D"
  /\ load_config environ config1 = throw format_error
  /\ ~ file_value_used environ config1 "PROGRAM_DESC".
Proof.
  cbn zeta.
  assert (H : load_config {[ "PROGRAM_DESC" := "" ]} config1 = throw format_error)
    by (vm_compute; reflexivity).
  split; [reflexivity|]. split; [reflexivity|]. split; [exact H|].
  intros (config & v & _ & Hload & _). rewrite H in Hload. discriminate.
Qed.

(** C7, amended.  In a file that has the five keys, each key gets the value
    of its environment variable whenever the variable is set, and the value
    of the file only when the variable is unset.  A variable set to the
    empty string is no exception: the value of the key is then empty and
    [load_config] raises instead of returning a configuration. *)
Theorem environment_overrides_whenever_set (environ config_file : gmap string string) :
  (forall k, In k config_keys -> is_Some (config_file !! k)) ->
  ((forall k, In k config_keys ->
      environ !! k <> Some "" /\ (environ !! k = None -> config_file !! k <> Some "")) ->
   exists config,
     load_config environ config_file = ok config /\
     forall k, In k config_keys ->
       match environ !! k with
       | Some v => dict_get config k = ok v
       | None => exists v, config_file !! k = Some v /\ dict_get config k = ok v
       end)
  /\ (forall k, In k config_keys -> environ !! k = Some "" ->
      exists e, load_config environ config_file = throw e).
Proof.
  intros Hfile. rewrite (load_config_spec _ _ Hfile). split.
  - intros Hne.
    assert (Hall : forall k, In k config_keys -> resolved environ config_file k <> "").
    { intros k Hk. destruct (Hne k Hk) as [He Hf]. destruct (Hfile k Hk) as [v Hv].
      unfold resolved. destruct (environ !! k) as [ev|]; [congruence|].
      rewrite Hv in *. cbn. intros ->. apply Hf; reflexivity. }
    apply forallb_nonempty_resolved in Hall. rewrite Hall.
    eexists; split; [reflexivity|].
    intros k Hk. rewrite (dict_get_resolved _ _ Hk). unfold resolved.
    destruct (environ !! k) as [ev|]; [reflexivity|].
    destruct (Hfile k Hk) as [v Hv]. exists v. rewrite Hv. split; reflexivity.
  - intros k Hk He.
    destruct (forallb nonempty (map (resolved environ config_file) config_keys)) eqn:Hall.
    + exfalso. apply (proj1 (forallb_nonempty_resolved _ _) Hall k Hk).
      unfold resolved. rewrite He. reflexivity.
    + eexists; reflexivity.
Qed.

Lemma environment_overrides_whenever_set_witness :
  exists config,
    load_config {[ "PROGRAM_DESC" := "from the environment" ]} config1 = ok config
    /\ dict_get config "PROGRAM_DESC" = ok "from the environment"
    /\ dict_get config "START_URL" = ok "http://h/liste.php".
Proof.
  destruct (environment_overrides_whenever_set
              {[ "PROGRAM_DESC" := "from the environment" ]} config1) as [H _].
  { each_key; vm_compute; eauto. }
  destruct H as (config & Hload & Hkeys).
  { each_key; split; vm_compute; congruence. }
  exists config. split; [exact Hload|]. split.
  - apply (Hkeys "PROGRAM_DESC"). unfold config_keys; cbn [In]; tauto.
  - destruct (Hkeys "START_URL") as (v & Hv & Hget);
      [unfold config_keys; cbn [In]; tauto|].
    rewrite Hget. vm_compute in Hv. congruence.
Defined.

(** ** Strings and the two patterns *)

Lemma list_ascii_of_string_app (s1 s2 : string) :
  list_ascii_of_string (s1 +:+ s2) = list_ascii_of_string s1 ++ list_ascii_of_string s2.
Proof.
  induction s1 as [|c s1 IH]; [reflexivity|].
  change (c :: list_ascii_of_string (s1 +:+ s2)
          = c :: (list_ascii_of_string s1 ++ list_ascii_of_string s2)).
  f_equal. exact IH.
Qed.

Lemma string_app_assoc (s1 s2 s3 : string) :
  (s1 +:+ s2) +:+ s3 = s1 +:+ (s2 +:+ s3).
Proof.
  induction s1 as [|c s1 IH]; [reflexivity|].
  change (String c ((s1 +:+ s2) +:+ s3) = String c (s1 +:+ (s2 +:+ s3))).
  f_equal. exact IH.
Qed.

Lemma backwards_app (s1 s2 : string) :
  backwards (s1 +:+ s2) = backwards s2 ++ backwards s1.
Proof. unfold backwards. rewrite list_ascii_of_string_app. apply rev_app_distr. Qed.

Lemma backwards_of_list (l : list ascii) :
  backwards (string_of_list_ascii l) = rev l.
Proof. unfold backwards. rewrite list_ascii_of_string_of_list_ascii. reflexivity. Qed.

Lemma string_of_list_ascii_app (l1 l2 : list ascii) :
  string_of_list_ascii (l1 ++ l2) = string_of_list_ascii l1 +:+ string_of_list_ascii l2.
Proof.
  induction l1 as [|c l1 IH]; [reflexivity|].
  change (String c (string_of_list_ascii (l1 ++ l2))
          = String c (string_of_list_ascii l1 +:+ string_of_list_ascii l2)).
  f_equal. exact IH.
Qed.

Lemma backwards_inv (s : string) (l : list ascii) :
  backwards s = l -> s = string_of_list_ascii (rev l).
Proof.
  unfold backwards. intros <-.
  rewrite rev_involutive, string_of_list_ascii_of_string. reflexivity.
Qed.

(** A link that ends in [_YYYY_MM_DD.mp3], whatever the case of the
    letters of the extension, has the three groups of digits. *)
Lemma date_search_dated (pre : string) (y1 y2 y3 y4 m1 m2 d1 d2 e1 e2 : ascii) :
  is_digit y1 = true -> is_digit y2 = true -> is_digit y3 = true -> is_digit y4 = true ->
  is_digit m1 = true -> is_digit m2 = true -> is_digit d1 = true -> is_digit d2 = true ->
  eqb_ignorecase e1 "m" = true -> eqb_ignorecase e2 "p" = true ->
  date_search (pre +:+ string_of_list_ascii
      ["_"; y1; y2; y3; y4; "_"; m1; m2; "_"; d1; d2; "."; e1; e2; "3"]%char)
  = Some [string_of_list_ascii [y1; y2; y3; y4];
          string_of_list_ascii [m1; m2];
          string_of_list_ascii [d1; d2]].
Proof.
  intros Hy1 Hy2 Hy3 Hy4 Hm1 Hm2 Hd1 Hd2 He1 He2.
  unfold date_search. rewrite backwards_app, backwards_of_list.
  cbn [rev app date_groups_backwards].
  rewrite Hy1, Hy2, Hy3, Hy4, Hm1, Hm2, Hd1, Hd2, He1, He2. reflexivity.
Qed.

Lemma date_search_invalid (pre : string) :
  date_search (pre +:+ "_invalid.mp3") = None.
Proof.
  unfold date_search. rewrite backwards_app.
  change (backwards "_invalid.mp3")
    with ["3"; "p"; "m"; "."; "d"; "i"; "l"; "a"; "v"; "n"; "i"; "_"]%char.
  destruct (backwards pre) as [|a [|b [|c r]]]; reflexivity.
Qed.

(** The letter [o] in the place of a digit. *)
Lemma date_search_letter (pre : string) :
  date_search (pre +:+ "_2o23_07_04.mp3") = None.
Proof.
  unfold date_search. rewrite backwards_app.
  change (backwards "_2o23_07_04.mp3")
    with ["3"; "p"; "m"; "."; "4"; "0"; "_"; "7"; "0"; "_"; "3"; "2"; "o"; "2"; "_"]%char.
  reflexivity.
Qed.

Lemma eqb_ignorecase_m (c : ascii) :
  eqb_ignorecase c "m" = true -> c = "m"%char \/ c = "M"%char.
Proof.
  destruct c as [[] [] [] [] [] [] [] []]; vm_compute; intros H;
    first [discriminate H | left; reflexivity | right; reflexivity].
Qed.

Lemma eqb_ignorecase_p (c : ascii) :
  eqb_ignorecase c "p" = true -> c = "p"%char \/ c = "P"%char.
Proof.
  destruct c as [[] [] [] [] [] [] [] []]; vm_compute; intros H;
    first [discriminate H | left; reflexivity | right; reflexivity].
Qed.

Lemma eqb_ignorecase_3 (c : ascii) : eqb_ignorecase c "3" = true -> c = "3"%char.
Proof.
  destruct c as [[] [] [] [] [] [] [] []]; vm_compute; intros H;
    first [discriminate H | reflexivity].
Qed.

Lemma date_groups_backwards_inv (r : list ascii) (groups : list string) :
  date_groups_backwards r = Some groups ->
  exists (y1 y2 y3 y4 m1 m2 d1 d2 e1 e2 : ascii) (r' : list ascii),
    r = rev ["_"; y1; y2; y3; y4; "_"; m1; m2; "_"; d1; d2; "."; e1; e2; "3"]%char ++ r'
    /\ is_digit y1 = true /\ is_digit y2 = true
    /\ is_digit y3 = true /\ is_digit y4 = true
    /\ is_digit m1 = true /\ is_digit m2 = true
    /\ is_digit d1 = true /\ is_digit d2 = true
    /\ (e1 = "m" \/ e1 = "M")%char /\ (e2 = "p" \/ e2 = "P")%char
    /\ groups = [string_of_list_ascii [y1; y2; y3; y4];
                 string_of_list_ascii [m1; m2];
                 string_of_list_ascii [d1; d2]].
Proof.
  unfold date_groups_backwards.
  destruct r as [|e3 [|e2 [|e1 [|dot [|d2 [|d1 [|u3 [|m2 [|m1 [|u2
    [|y4 [|y3 [|y2 [|y1 [|u1 r]]]]]]]]]]]]]]]; try discriminate.
  match goal with |- context [if ?b then _ else _] => destruct b eqn:Hb end;
    [|discriminate].
  intros [= <-].
  repeat match type of Hb with
         | (_ && _)%bool = true => apply andb_prop in Hb as [Hb ?]
         end.
  repeat match goal with
         | H : Ascii.eqb _ _ = true |- _ => apply Ascii.eqb_eq in H; subst
         end.
  apply eqb_ignorecase_3 in Hb. subst e3.
  exists y1, y2, y3, y4, m1, m2, d1, d2, e1, e2, r.
  split; [reflexivity|].
  repeat (split; [assumption|]).
  split; [apply eqb_ignorecase_m; assumption|].
  split; [apply eqb_ignorecase_p; assumption|reflexivity].
Qed.

Lemma date_search_dated_newline (pre : string) (y1 y2 y3 y4 m1 m2 d1 d2 e1 e2 : ascii) :
  is_digit y1 = true -> is_digit y2 = true -> is_digit y3 = true -> is_digit y4 = true ->
  is_digit m1 = true -> is_digit m2 = true -> is_digit d1 = true -> is_digit d2 = true ->
  eqb_ignorecase e1 "m" = true -> eqb_ignorecase e2 "p" = true ->
  date_search (pre +:+ string_of_list_ascii
      ["_"; y1; y2; y3; y4; "_"; m1; m2; "_"; d1; d2; "."; e1; e2; "3"; newline]%char)
  = Some [string_of_list_ascii [y1; y2; y3; y4];
          string_of_list_ascii [m1; m2];
          string_of_list_ascii [d1; d2]].
Proof.
  intros Hy1 Hy2 Hy3 Hy4 Hm1 Hm2 Hd1 Hd2 He1 He2.
  unfold date_search. rewrite backwards_app, backwards_of_list.
  cbn [rev app date_groups_backwards].
  change (eqb_ignorecase newline "3") with false. cbn [andb].
  change (Ascii.eqb newline newline) with true. cbv iota.
  rewrite Hy1, Hy2, Hy3, Hy4, Hm1, Hm2, Hd1, Hd2, He1, He2. reflexivity.
Qed.

Lemma string_app_empty (s : string) : s +:+ "" = s.
Proof.
  induction s as [|c s IH]; [reflexivity|].
  change (String c (s +:+ "") = String c s). f_equal. exact IH.
Qed.

(** ** Tags found by attribute *)

Lemma find_attr_has_attr (soup : list Tag) (tag_name attr : string)
    (test : string -> bool) (t : Tag) :
  find_attr soup tag_name attr test = Some t ->
  exists v, attrs t !! attr = Some v /\ test v = true.
Proof.
  unfold find_attr, find_all_attr. intros H.
  apply head_Some_elem_of, list_elem_of_filter in H as [H _].
  unfold attr_matches in H. destruct (attrs t !! attr) as [v|]; [eauto|discriminate].
Qed.

(** The characters that [\d] matches, among those of the model. *)
Lemma is_digit_decimal (c : ascii) : is_digit c = true <-> decimal_digit c.
Proof.
  unfold decimal_digit. cbn [list_ascii_of_string In].
  destruct c as [[] [] [] [] [] [] [] []]; split; intros H;
    first [discriminate H | reflexivity | tauto
          | repeat (destruct H as [H|H]; [discriminate H|]); contradiction H].
Qed.

Lemma date_search_of_dated_link (s d : string) :
  dated_link s d -> exists groups, date_search s = Some groups /\ join "-" groups = d.
Proof.
  intros (pre & tail & y1 & y2 & y3 & y4 & m1 & m2 & d1 & d2 & e1 & e2
          & -> & Htail & Hdigits & He1 & He2 & ->).
  repeat match goal with
         | H : Forall _ (_ :: _) |- _ =>
             apply Forall_cons in H as [?%is_digit_decimal H]
         end.
  assert (He1' : eqb_ignorecase e1 "m" = true) by (destruct He1; subst; reflexivity).
  assert (He2' : eqb_ignorecase e2 "p" = true) by (destruct He2; subst; reflexivity).
  exists [string_of_list_ascii [y1; y2; y3; y4]; string_of_list_ascii [m1; m2];
          string_of_list_ascii [d1; d2]].
  split; [|reflexivity].
  destruct Htail; subst tail.
  - rewrite string_app_empty. apply date_search_dated; assumption.
  - apply (date_search_dated_newline pre); assumption.
Qed.

Lemma dated_link_of_date_search (s : string) (groups : list string) :
  date_search s = Some groups -> dated_link s (join "-" groups).
Proof.
  assert (Hgroups : forall (r r' : list ascii) (tail : list ascii),
            date_groups_backwards r' = Some groups ->
            backwards s = rev tail ++ r' ->
            tail = [] \/ tail = [newline] ->
            dated_link s (join "-" groups)).
  { intros r r' tail Hr' Hs Htail.
    destruct (date_groups_backwards_inv _ _ Hr')
      as (y1 & y2 & y3 & y4 & m1 & m2 & d1 & d2 & e1 & e2 & r'' & -> & Hy1 & Hy2
          & Hy3 & Hy4 & Hm1 & Hm2 & Hd1 & Hd2 & He1 & He2 & ->).
    exists (string_of_list_ascii (rev r'')), (string_of_list_ascii tail),
      y1, y2, y3, y4, m1, m2, d1, d2, e1, e2.
    split.
    - rewrite (backwards_inv _ _ Hs), !rev_app_distr, !rev_involutive.
      rewrite !string_of_list_ascii_app. apply string_app_assoc.
    - split; [destruct Htail; subst tail; [left|right]; reflexivity|].
      split; [repeat (apply List.Forall_cons; [apply is_digit_decimal; assumption|]);
              apply List.Forall_nil|].
      split; [exact He1|]. split; [exact He2|reflexivity]. }
  unfold date_search.
  destruct (date_groups_backwards (backwards s)) as [g|] eqn:Hfirst.
  - intros [= <-]. apply (Hgroups [] (backwards s) []); [exact Hfirst|reflexivity|].
    left; reflexivity.
  - destruct (backwards s) as [|c r] eqn:Hs; [discriminate|].
    destruct (Ascii.eqb c newline) eqn:Hc; [|discriminate].
    apply Ascii.eqb_eq in Hc. subst c. intros Hsecond.
    apply (Hgroups [] r [newline]); [exact Hsecond|reflexivity|].
    right; reflexivity.
Qed.

(** ** The record of a detail page *)

(** The lookups of the extraction are guarded: it raises where [urljoin]
    does, on the href of the anchor it selects, and nowhere else. *)
Lemma extract_spec (w : World) (page_url : string) (soup_page : list Tag) :
  extract w page_url soup_page = extraction w page_url soup_page.
Proof.
  unfold extract, extraction, resolved_link, selected_href, extracted, title_id, program_id.
  destruct (find_attr soup_page "a" "href" link_regex_search) as [a|] eqn:Ha.
  - destruct (find_attr_has_attr _ _ _ _ _ Ha) as (h & Hh & _).
    revert Ha. unfold find_attr.
    destruct (find_all_attr soup_page "a" "href" link_regex_search) as [|a' la];
      [discriminate|]. intros [= ->].
    destruct (find_all_attr soup_page "div" "id" (String.eqb "titre")) as [|t lt];
      destruct (find_all_attr soup_page "div" "id" (String.eqb "emission")) as [|d ld];
      cbn; unfold getitem; rewrite Hh; cbn;
      destruct (urljoin w page_url h); reflexivity.
  - revert Ha. unfold find_attr.
    destruct (find_all_attr soup_page "a" "href" link_regex_search) as [|a' la];
      [intros _|discriminate].
    destruct (find_all_attr soup_page "div" "id" (String.eqb "titre")) as [|t lt];
      destruct (find_all_attr soup_page "div" "id" (String.eqb "emission")) as [|d ld];
      reflexivity.
Qed.

Lemma extract_ok (w : World) (page_url : string) (soup_page : list Tag) (l : string) :
  resolved_link w page_url soup_page = ok l ->
  extract w page_url soup_page = ok (extracted w soup_page l).
Proof. intros H. rewrite extract_spec. unfold extraction. rewrite H. reflexivity. Qed.

Lemma extract_ok_inv (w : World) (page_url : string) (soup_page : list Tag) (p : program) :
  extract w page_url soup_page = ok p ->
  resolved_link w page_url soup_page = ok (link p) /\ p = extracted w soup_page (link p).
Proof.
  rewrite extract_spec. unfold extraction.
  destruct (resolved_link w page_url soup_page) as [e|l]; [discriminate|].
  intros [= <-]. split; reflexivity.
Qed.

(** ** One iteration of the loop over the links *)

Lemma emit_emits (ev : event) (evs : list event) (st : state) :
  emit ev (emits evs st) = emits (evs ++ [ev]) st.
Proof. unfold emit, emits. cbn. rewrite <- app_assoc. reflexivity. Qed.

Lemma emit_one (ev : event) (st : state) : emit ev st = emits [ev] st.
Proof. reflexivity. Qed.

(** The iteration on a link to a detail page that is fetched without
    error, up to the extraction. *)
Lemma visit_extract (w : World) (url : string) (page_link : Tag)
    (programs : list program) (st : state) (href page_url content : string) :
  attrs page_link !! "href" = Some href ->
  urljoin w url href = ok page_url ->
  contains program_page page_url = true ->
  requests_get w (trace st ++ [Log INFO (Parsing page_url)]) page_url = ok content ->
  visit w url page_link programs st =
    match extract w page_url (BeautifulSoup w content) with
    | inl e => (throw e, emits [Log INFO (Parsing page_url); Get page_url None] st)
    | inr p =>
        if incomplete p
        then (ok programs,
              emits [Log INFO (Parsing page_url); Get page_url None;
                     Log WARNING (CannotFindAllData (title p) page_url)] st)
        else match date_search (link p) with
             | Some groups =>
                 (ok (programs ++ [set_date p (Some (join "-" groups))]),
                  emits [Log INFO (Parsing page_url); Get page_url None] st)
             | None =>
                 (ok (programs ++ [p]),
                  emits [Log INFO (Parsing page_url); Get page_url None;
                         Log WARNING (CannotDetermineDate (title p) page_url)] st)
             end
    end.
Proof.
  intros Hhref Hjoin Hpage Hget.
  unfold visit, bind, lift, getitem. rewrite Hhref, Hjoin, Hpage. unfold log, http_get.
  cbn [emit trace]. rewrite Hget.
  fold (emit (Log INFO (Parsing page_url)) st).
  destruct (extract w page_url (BeautifulSoup w content)) as [e|p].
  - rewrite (emit_one _ st), !emit_emits. reflexivity.
  - destruct (incomplete p); [|destruct (date_search (link p))];
      unfold ret; rewrite (emit_one _ st), !emit_emits; reflexivity.
Qed.

Lemma visit_fetched (w : World) (url : string) (page_link : Tag)
    (programs : list program) (st : state) (href page_url content : string)
    (p : program) :
  attrs page_link !! "href" = Some href ->
  urljoin w url href = ok page_url ->
  contains program_page page_url = true ->
  requests_get w (trace st ++ [Log INFO (Parsing page_url)]) page_url = ok content ->
  extract w page_url (BeautifulSoup w content) = ok p ->
  visit w url page_link programs st =
    if incomplete p
    then (ok programs,
          emits [Log INFO (Parsing page_url); Get page_url None;
                 Log WARNING (CannotFindAllData (title p) page_url)] st)
    else match date_search (link p) with
         | Some groups =>
             (ok (programs ++ [set_date p (Some (join "-" groups))]),
              emits [Log INFO (Parsing page_url); Get page_url None] st)
         | None =>
             (ok (programs ++ [p]),
              emits [Log INFO (Parsing page_url); Get page_url None;
                     Log WARNING (CannotDetermineDate (title p) page_url)] st)
         end.
Proof.
  intros Hhref Hjoin Hpage Hget Hp.
  rewrite (visit_extract w url page_link programs st href page_url content
             Hhref Hjoin Hpage Hget), Hp.
  reflexivity.
Qed.

Lemma incomplete_true (p : program) :
  title p = "" \/ description p = "" \/ link p = "" -> incomplete p = true.
Proof.
  unfold incomplete. intros [H|[H|H]]; rewrite H; cbn;
    rewrite ?orb_true_r; reflexivity.
Qed.

Lemma visit_all_cons (w : World) (url : string) (page_link : Tag) (rest : list Tag)
    (programs programs' : list program) (st st' : state) :
  visit w url page_link programs st = (ok programs', st') ->
  visit_all w url (page_link :: rest) programs st = visit_all w url rest programs' st'.
Proof. intros H. cbn [visit_all]. unfold bind. rewrite H. reflexivity. Qed.

(** A detail page without title, which the claim says is skipped with a
    warning while the loop goes on: the reference of its audio link is one
    that [urljoin] refuses, so the extraction raises before the record is
    tested; no warning is logged and the page after it is never
    requested. *)
Lemma page_with_refused_link_is_not_skipped :
  let soup := BeautifulSoup site_refused "http://h/detail_emission.php?id=6" in
  let fetched := emits [Log INFO (Parsing "http://h/detail_emission.php?id=6");
                        Get "http://h/detail_emission.php?id=6" None] st0 in
  find_all_attr soup "div" "id" (String.eqb title_id) = []
  /\ selected_href soup = Some "http://[x.mp3"
  /\ visit site_refused "http://h/liste.php" (anchor "detail_emission.php?id=6") [] st0
     = (throw (ValueError "Invalid IPv6 URL"), fetched)
  /\ visit_all site_refused "http://h/liste.php"
       [anchor "detail_emission.php?id=6"; anchor "detail_emission.php?id=3"] [] st0
     = (throw (ValueError "Invalid IPv6 URL"), fetched).
Proof. vm_compute. repeat split. Qed.

(** C3.  A link of the listing page leads to a detail page that is fetched
    without error and on which [urljoin] accepts the href of the selected
    audio anchor, if there is one.  The extraction then gives a record [p]
    with the resolved link; when the title, the description or the link of
    [p] is empty, the iteration leaves the list of programs as it was, logs
    one warning and returns normally, and the loop goes on with the
    remaining links. *)
Theorem incomplete_page_is_skipped (w : World) (url : string) (page_link : Tag)
    (rest : list Tag) (programs : list program) (st : state)
    (href page_url content l : string) :
  attrs page_link !! "href" = Some href ->
  urljoin w url href = ok page_url ->
  contains program_page page_url = true ->
  requests_get w (trace st ++ [Log INFO (Parsing page_url)]) page_url = ok content ->
  resolved_link w page_url (BeautifulSoup w content) = ok l ->
  exists p,
    extract w page_url (BeautifulSoup w content) = ok p /\
    link p = l /\
    (title p = "" \/ description p = "" \/ link p = "" ->
     let st' := emits [Log INFO (Parsing page_url); Get page_url None;
                       Log WARNING (CannotFindAllData (title p) page_url)] st in
     visit w url page_link programs st = (ok programs, st') /\
     visit_all w url (page_link :: rest) programs st
       = visit_all w url rest programs st').
Proof.
  intros Hhref Hjoin Hpage Hget Hlink.
  exists (extracted w (BeautifulSoup w content) l).
  split; [apply extract_ok, Hlink|]. split; [reflexivity|]. intros Hempty st'.
  assert (Hvisit : visit w url page_link programs st = (ok programs, st')).
  { rewrite (visit_fetched w url page_link programs st href page_url content _
               Hhref Hjoin Hpage Hget (extract_ok _ _ _ _ Hlink)).
    rewrite (incomplete_true _ Hempty). reflexivity. }
  split; [exact Hvisit|]. apply visit_all_cons, Hvisit.
Qed.

Lemma incomplete_page_is_skipped_witness :
  visit_all site1 "http://h/liste.php"
    [anchor "detail_emission.php?id=2"; anchor "detail_emission.php?id=3"] [] st0
  = visit_all site1 "http://h/liste.php" [anchor "detail_emission.php?id=3"] []
      (emits [Log INFO (Parsing "http://h/detail_emission.php?id=2");
              Get "http://h/detail_emission.php?id=2" None;
              Log WARNING (CannotFindAllData "two" "http://h/detail_emission.php?id=2")]
         st0).
Proof.
  destruct (incomplete_page_is_skipped site1 "http://h/liste.php"
              (anchor "detail_emission.php?id=2") [anchor "detail_emission.php?id=3"]
              [] st0 "detail_emission.php?id=2" "http://h/detail_emission.php?id=2"
              "http://h/detail_emission.php?id=2" "http://h/x_2023_02_02.mp3")
    as (p & Hp & _ & H); [reflexivity|reflexivity|reflexivity|reflexivity|reflexivity|].
  vm_compute in Hp. injection Hp as <-.
  apply H. right; left; reflexivity.
Defined.

(** C4.  A link of the listing page leads to a detail page that is fetched
    without error and whose record [p] is complete.  The date of the
    record is then derived from its link, and from nothing else.  A link
    that ends in [_YYYY_MM_DD.mp3], with eight decimal digits and the
    extension in upper or lower case, gives the date [YYYY-MM-DD] and no
    warning: [..._2023_07_04.mp3] and [..._2023_07_04.MP3] give exactly
    [2023-07-04].  A link that does not end so, as one that ends in
    [_invalid.mp3] or has a letter where a digit should be, leaves the date
    absent and a warning is logged.  In both cases the record is appended
    to the programs.  The texts that the search of the pattern gives are
    exactly those of the links that end so. *)
Theorem date_is_derived_from_link (w : World) (url : string) (page_link : Tag)
    (programs : list program) (st : state) (href page_url content : string)
    (p : program) :
  attrs page_link !! "href" = Some href ->
  urljoin w url href = ok page_url ->
  contains program_page page_url = true ->
  requests_get w (trace st ++ [Log INFO (Parsing page_url)]) page_url = ok content ->
  extract w page_url (BeautifulSoup w content) = ok p ->
  incomplete p = false ->
  let fetched := emits [Log INFO (Parsing page_url); Get page_url None] st in
  let warned := emits [Log INFO (Parsing page_url); Get page_url None;
                       Log WARNING (CannotDetermineDate (title p) page_url)] st in
  date p = None
  /\ (forall d, dated_link (link p) d ->
        visit w url page_link programs st
        = (ok (programs ++ [set_date p (Some d)]), fetched))
  /\ ((forall d, ~ dated_link (link p) d) ->
        visit w url page_link programs st = (ok (programs ++ [p]), warned))
  /\ (forall pre, link p = pre +:+ "_2023_07_04.mp3" ->
        visit w url page_link programs st
        = (ok (programs ++ [set_date p (Some "2023-07-04")]), fetched))
  /\ (forall pre, link p = pre +:+ "_2023_07_04.MP3" ->
        visit w url page_link programs st
        = (ok (programs ++ [set_date p (Some "2023-07-04")]), fetched))
  /\ (forall pre, link p = pre +:+ "_invalid.mp3" ->
        visit w url page_link programs st = (ok (programs ++ [p]), warned))
  /\ (forall pre, link p = pre +:+ "_2o23_07_04.mp3" ->
        visit w url page_link programs st = (ok (programs ++ [p]), warned))
  /\ (forall s d, option_map (join "-") (date_search s) = Some d <-> dated_link s d).
Proof.
  intros Hhref Hjoin Hpage Hget Hp Hcomplete fetched warned.
  pose proof (visit_fetched w url page_link programs st href page_url content p
                Hhref Hjoin Hpage Hget Hp) as Hvisit.
  rewrite Hcomplete in Hvisit.
  assert (Hdated : forall groups, date_search (link p) = Some groups ->
            visit w url page_link programs st
            = (ok (programs ++ [set_date p (Some (join "-" groups))]), fetched)).
  { intros groups Hgroups. rewrite Hvisit, Hgroups. reflexivity. }
  assert (Hundated : date_search (link p) = None ->
            visit w url page_link programs st = (ok (programs ++ [p]), warned)).
  { intros Hnone. rewrite Hvisit, Hnone. reflexivity. }
  split.
  { apply extract_ok_inv in Hp as [_ ->]. reflexivity. }
  split.
  { intros d (groups & Hgroups & <-)%date_search_of_dated_link.
    apply Hdated, Hgroups. }
  split.
  { intros Hnot. apply Hundated.
    destruct (date_search (link p)) as [groups|] eqn:Hgroups; [|reflexivity].
    destruct (Hnot _ (dated_link_of_date_search _ _ Hgroups)). }
  split.
  { intros pre Hlink.
    apply (Hdated ["2023"; "07"; "04"]). rewrite Hlink.
    apply (date_search_dated pre "2" "0" "2" "3" "0" "7" "0" "4" "m" "p")%char;
      reflexivity. }
  split.
  { intros pre Hlink.
    apply (Hdated ["2023"; "07"; "04"]). rewrite Hlink.
    apply (date_search_dated pre "2" "0" "2" "3" "0" "7" "0" "4" "M" "P")%char;
      reflexivity. }
  split.
  { intros pre Hlink. apply Hundated. rewrite Hlink. apply date_search_invalid. }
  split.
  { intros pre Hlink. apply Hundated. rewrite Hlink. apply date_search_letter. }
  intros s d. split.
  - destruct (date_search s) as [groups|] eqn:Hgroups; [|discriminate].
    intros [= <-]. apply dated_link_of_date_search, Hgroups.
  - intros (groups & -> & <-)%date_search_of_dated_link. reflexivity.
Qed.

Lemma date_is_derived_from_link_witness :
  visit site1 "http://h/liste.php" (anchor "detail_emission.php?id=3") [] st0
  = (ok [{| title := "three"; description := "third";
            link := "http://h/x_2023_07_04.mp3"; date := Some "2023-07-04" |}],
     emits [Log INFO (Parsing "http://h/detail_emission.php?id=3");
            Get "http://h/detail_emission.php?id=3" None] st0)
  /\ visit site1 "http://h/liste.php" (anchor "detail_emission.php?id=4") [] st0
  = (ok [{| title := "four"; description := "fourth";
            link := "http://h/x_invalid.mp3"; date := None |}],
     emits [Log INFO (Parsing "http://h/detail_emission.php?id=4");
            Get "http://h/detail_emission.php?id=4" None;
            Log WARNING (CannotDetermineDate "four" "http://h/detail_emission.php?id=4")]
       st0).
Proof.
  split.
  - destruct (date_is_derived_from_link site1 "http://h/liste.php"
                (anchor "detail_emission.php?id=3") [] st0
                "detail_emission.php?id=3" "http://h/detail_emission.php?id=3"
                "http://h/detail_emission.php?id=3"
                {| title := "three"; description := "third";
                   link := "http://h/x_2023_07_04.mp3"; date := None |})
      as (_ & _ & _ & H & _);
      [reflexivity|reflexivity|reflexivity|reflexivity|reflexivity|reflexivity|].
    exact (H "http://h/x" eq_refl).
  - destruct (date_is_derived_from_link site1 "http://h/liste.php"
                (anchor "detail_emission.php?id=4") [] st0
                "detail_emission.php?id=4" "http://h/detail_emission.php?id=4"
                "http://h/detail_emission.php?id=4"
                {| title := "four"; description := "fourth";
                   link := "http://h/x_invalid.mp3"; date := None |})
      as (_ & _ & _ & _ & _ & H & _);
      [reflexivity|reflexivity|reflexivity|reflexivity|reflexivity|reflexivity|].
    exact (H "http://h/x" eq_refl).
Defined.

(** ** Links without a target *)

Lemma visit_all_app (w : World) (url : string) (l1 l2 : list Tag)
    (programs : list program) (st : state) :
  visit_all w url (l1 ++ l2) programs st =
    match visit_all w url l1 programs st with
    | (inl e, st') => (inl e, st')
    | (inr programs', st') => visit_all w url l2 programs' st'
    end.
Proof.
  revert programs st. induction l1 as [|page_link l1 IH]; intros programs st.
  - reflexivity.
  - cbn [app visit_all]. unfold bind.
    destruct (visit w url page_link programs st) as [[e|programs'] st'].
    + reflexivity.
    + apply IH.
Qed.

Lemma visit_without_href (w : World) (url : string) (page_link : Tag)
    (programs : list program) (st : state) :
  attrs page_link !! "href" = None ->
  visit w url page_link programs st = (throw (KeyError "href"), st).
Proof. intros H. unfold visit, bind, lift, getitem. rewrite H. reflexivity. Qed.

(** C9.  The listing page is fetched without error and one of its anchors
    has no href.  Then [get_programs] does not return a list: it raises.
    More precisely, once the anchors before that one have been processed
    without an exception, the lookup of ['href'] raises KeyError, and
    nothing is done for the anchors that follow: the effects are those of
    the anchors before. *)
Theorem anchor_without_href_raises (w : World) (url : string) (st : state)
    (content : string) (page_link : Tag) :
  requests_get w (trace st) url = ok content ->
  In page_link (find_all (BeautifulSoup w content) "a") ->
  attrs page_link !! "href" = None ->
  (exists e, fst (get_programs w url st) = throw e)
  /\ (forall before after : list Tag,
        find_all (BeautifulSoup w content) "a" = before ++ page_link :: after ->
        get_programs w url st =
          match visit_all w url before [] (emit (Get url None) st) with
          | (inl e, st') => (inl e, st')
          | (inr _, st') => (throw (KeyError "href"), st')
          end).
Proof.
  intros Hget Hin Hhref.
  assert (Hsplit : forall before after : list Tag,
            find_all (BeautifulSoup w content) "a" = before ++ page_link :: after ->
            get_programs w url st =
              match visit_all w url before [] (emit (Get url None) st) with
              | (inl e, st') => (inl e, st')
              | (inr _, st') => (throw (KeyError "href"), st')
              end).
  { intros before after Heq. unfold get_programs, bind, http_get.
    rewrite Hget, Heq, visit_all_app.
    destruct (visit_all w url before [] (emit (Get url None) st)) as [[e|ps] st'];
      [reflexivity|].
    cbn [visit_all]. unfold bind. rewrite (visit_without_href _ _ _ _ _ Hhref).
    reflexivity. }
  split; [|exact Hsplit].
  destruct (in_split _ _ Hin) as (before & after & Heq).
  rewrite (Hsplit before after Heq).
  destruct (visit_all w url before [] (emit (Get url None) st)) as [[e|ps] st'];
    eexists; reflexivity.
Qed.

Lemma anchor_without_href_raises_witness :
  get_programs site_without_href "http://h/liste.php" st0
  = (throw (KeyError "href"),
     emits [Get "http://h/liste.php" None;
            Log INFO (Parsing "http://h/detail_emission.php?id=1");
            Get "http://h/detail_emission.php?id=1" None] st0).
Proof.
  destruct (anchor_without_href_raises site_without_href "http://h/liste.php" st0
              "http://h/liste.php" anchor_without_href) as [_ H];
    [reflexivity|vm_compute; tauto|reflexivity|].
  rewrite (H [anchor "detail_emission.php?id=1"] [anchor "detail_emission.php?id=3"]);
    reflexivity.
Defined.

(** ** The pattern of the audio link *)

Lemma starts_with_inv (pat l : list ascii) :
  starts_with pat l = true -> exists r, l = pat ++ r.
Proof.
  revert l. induction pat as [|p pat IH]; intros l H.
  - exists l. reflexivity.
  - destruct l as [|c l]; [discriminate|]. cbn in H.
    apply andb_prop in H as [Hc Hl]. apply Ascii.eqb_eq in Hc as ->.
    destruct (IH l Hl) as [r ->]. exists r. reflexivity.
Qed.

Lemma link_regex_search_inv (href : string) :
  link_regex_search href = true ->
  exists pre, href = pre +:+ "mp3"
              \/ href = pre +:+ string_of_list_ascii ["m"; "p"; "3"; newline]%char.
Proof.
  unfold link_regex_search. intros H. apply orb_prop in H as [H|H];
    apply starts_with_inv in H as [r H]; apply backwards_inv in H;
    exists (string_of_list_ascii (rev r)); [left|right]; rewrite H;
    rewrite rev_app_distr, string_of_list_ascii_app; reflexivity.
Qed.

Lemma link_regex_search_uppercase (href : string) :
  ends_in_uppercase_variant href -> link_regex_search href = false.
Proof.
  intros (pre & e1 & e2 & -> & _ & _ & Hne).
  unfold link_regex_search. rewrite backwards_app, backwards_of_list.
  cbn [rev app starts_with backwards list_ascii_of_string].
  change (Ascii.eqb "3" newline) with false.
  rewrite andb_false_l, orb_false_r, andb_true_r.
  destruct Hne as [Hne|Hne]; apply Ascii.eqb_neq in Hne; rewrite Hne;
    rewrite ?andb_false_r; reflexivity.
Qed.

Lemma find_attr_none (soup : list Tag) (tag_name attr : string) (test : string -> bool) :
  (forall a h, In a (find_all soup tag_name) -> attrs a !! attr = Some h -> test h = false) ->
  find_attr soup tag_name attr test = None.
Proof.
  intros H. unfold find_attr.
  destruct (find_all_attr soup tag_name attr test) as [|a l] eqn:Heq; [reflexivity|].
  assert (Ha : a ∈ find_all_attr soup tag_name attr test) by (rewrite Heq; left).
  unfold find_all_attr in Ha. apply list_elem_of_filter in Ha as [Hm Ha].
  apply list_elem_of_In in Ha. unfold attr_matches in Hm.
  destruct (attrs a !! attr) as [h|] eqn:Hh; [|discriminate].
  rewrite (H a h Ha Hh) in Hm. discriminate.
Qed.

Lemma starts_with_ignorecase_of (pat l : list ascii) :
  starts_with pat l = true -> starts_with_ignorecase pat l = true.
Proof.
  revert l. induction pat as [|p pat IH]; intros l H; [reflexivity|].
  destruct l as [|c l]; [discriminate|]. cbn in *.
  apply andb_prop in H as [Hc Hl]. apply Ascii.eqb_eq in Hc as ->.
  rewrite (IH l Hl). unfold eqb_ignorecase. rewrite Ascii.eqb_refl. reflexivity.
Qed.

Lemma link_regex_search_ignorecase_of (href : string) :
  link_regex_search href = true -> link_regex_search_ignorecase href = true.
Proof.
  unfold link_regex_search, link_regex_search_ignorecase. intros H.
  apply orb_prop in H as [H|H]; apply starts_with_ignorecase_of in H; rewrite H;
    rewrite ?orb_true_r; reflexivity.
Qed.

(** C10.  The link pattern is matched with the case of the letters: an
    href that it selects ends in lower-case [mp3] (before the line feed
    that may end it), and an href that ends in [MP3], [Mp3] or [mP3] is not
    selected, although the date pattern matches such a name.  So when every
    anchor of a detail page that names an mp3 file, in any case, ends in
    one of these variants, the link of the record stays empty and the
    record is discarded with a warning. *)
Theorem uppercase_audio_link_is_not_selected :
  (forall href, link_regex_search href = true ->
     exists pre, href = pre +:+ "mp3"
                 \/ href = pre +:+ string_of_list_ascii ["m"; "p"; "3"; newline]%char)
  /\ (forall href, ends_in_uppercase_variant href -> link_regex_search href = false)
  /\ (forall pre, link_regex_search (pre +:+ "_2023_07_04.MP3") = false
                  /\ date_search (pre +:+ "_2023_07_04.MP3") = Some ["2023"; "07"; "04"])
  /\ (forall (w : World) (url : string) (page_link : Tag) (programs : list program)
        (st : state) (href page_url content : string),
        attrs page_link !! "href" = Some href ->
        urljoin w url href = ok page_url ->
        contains program_page page_url = true ->
        requests_get w (trace st ++ [Log INFO (Parsing page_url)]) page_url = ok content ->
        (forall a h, In a (find_all (BeautifulSoup w content) "a") ->
           attrs a !! "href" = Some h ->
           link_regex_search_ignorecase h = true -> ends_in_uppercase_variant h) ->
        exists p,
          extract w page_url (BeautifulSoup w content) = ok p /\
          link p = "" /\
          visit w url page_link programs st =
            (ok programs,
             emits [Log INFO (Parsing page_url); Get page_url None;
                    Log WARNING (CannotFindAllData (title p) page_url)] st)).
Proof.
  split; [exact link_regex_search_inv|].
  split; [exact link_regex_search_uppercase|]. split.
  - intros pre. split.
    + apply link_regex_search_uppercase.
      exists (pre +:+ "_2023_07_04."), "M"%char, "P"%char.
      split; [|split; [reflexivity|split; [reflexivity|left; discriminate]]].
      rewrite string_app_assoc. reflexivity.
    + apply (date_search_dated pre "2" "0" "2" "3" "0" "7" "0" "4" "M" "P")%char;
        reflexivity.
  - intros w url page_link programs st href page_url content Hhref Hjoin Hpage Hget Hupper.
    assert (Hlink : resolved_link w page_url (BeautifulSoup w content) = ok "").
    { unfold resolved_link, selected_href. rewrite find_attr_none; [reflexivity|].
      intros a h Ha Hh. destruct (link_regex_search h) eqn:Hsel; [|reflexivity].
      rewrite <- Hsel. apply link_regex_search_uppercase, (Hupper a h Ha Hh).
      apply link_regex_search_ignorecase_of, Hsel. }
    exists (extracted w (BeautifulSoup w content) "").
    split; [apply extract_ok, Hlink|]. split; [reflexivity|].
    rewrite (visit_fetched w url page_link programs st href page_url content _
               Hhref Hjoin Hpage Hget (extract_ok _ _ _ _ Hlink)).
    rewrite incomplete_true by (right; right; reflexivity).
    reflexivity.
Qed.

Lemma uppercase_audio_link_is_not_selected_witness :
  visit site_uppercase "http://h/liste.php" (anchor "detail_emission.php?id=5") [] st0
  = (ok [],
     emits [Log INFO (Parsing "http://h/detail_emission.php?id=5");
            Get "http://h/detail_emission.php?id=5" None;
            Log WARNING (CannotFindAllData "five" "http://h/detail_emission.php?id=5")]
       st0).
Proof.
  destruct uppercase_audio_link_is_not_selected as (_ & _ & _ & H).
  destruct (H site_uppercase "http://h/liste.php" (anchor "detail_emission.php?id=5")
              [] st0 "detail_emission.php?id=5" "http://h/detail_emission.php?id=5"
              "http://h/detail_emission.php?id=5")
    as (p & Hp & _ & Hvisit); [reflexivity|reflexivity|reflexivity|reflexivity| |].
  - intros a h Ha Hh Hmp3. vm_compute in Ha.
    destruct Ha as [<-|[<-|[]]]; vm_compute in Hh; injection Hh as <-.
    + discriminate Hmp3.
    + exists "x_2023_07_04."%string, "M"%char, "P"%char.
      split; [reflexivity|]. split; [reflexivity|]. split; [reflexivity|].
      left; discriminate.
  - vm_compute in Hp. injection Hp as <-. exact Hvisit.
Defined.

(** ** The serializer *)

Lemma strptime_raises (data : option string) (e : exn) :
  strptime data = throw e -> raised_by_strptime e.
Proof.
  unfold strptime, raised_by_strptime. destruct data as [s|].
  - intros H. right. exists s.
    destruct (strptime_match (list_ascii_of_string s)) as [[[[y m] d] [|c r]]|];
      [destruct ((1 <=? y) && (d <=? days_in_month y m))|..]; congruence.
  - intros [= <-]. left. reflexivity.
Qed.

Lemma strptime_ok_dated (data : option string) (dt : datetime) :
  strptime data = ok dt -> data <> None.
Proof. destruct data; [discriminate|]. cbn. discriminate. Qed.

Lemma build_items_ok (items : list program) (dts : list datetime)
    (rss_items : list RSSItem) :
  Forall2 (fun item dt => strptime (date item) = ok dt) items dts ->
  build_items items rss_items = ok (rss_items ++ zip_with rss_item_of items dts).
Proof.
  intros H. revert rss_items.
  induction H as [|item dt items dts Hdt _ IH]; intros rss_items.
  - cbn. rewrite app_nil_r. reflexivity.
  - cbn [build_items rbind zip_with]. rewrite Hdt. cbn [rbind].
    rewrite IH, <- app_assoc. reflexivity.
Qed.

Lemma build_items_ok_inv (items : list program) (rss_items rss_items' : list RSSItem) :
  build_items items rss_items = ok rss_items' ->
  Forall (fun item => date item <> None) items.
Proof.
  revert rss_items. induction items as [|item items IH]; intros rss_items H.
  - constructor.
  - cbn [build_items] in H.
    destruct (strptime (date item)) as [e|dt] eqn:Hdt; [discriminate|].
    constructor; [exact (strptime_ok_dated _ _ Hdt)|exact (IH _ H)].
Qed.

Lemma build_items_undated (items : list program) (rss_items : list RSSItem) :
  (exists item, In item items /\ date item = None) ->
  exists e, build_items items rss_items = throw e /\ raised_by_strptime e.
Proof.
  intros (item & Hin & Hnone). revert rss_items.
  induction items as [|item' items IH]; intros rss_items; [contradiction|].
  cbn [build_items].
  destruct (strptime (date item')) as [e|dt] eqn:Hdt.
  - exists e. split; [reflexivity|exact (strptime_raises _ _ Hdt)].
  - destruct Hin as [->|Hin].
    + rewrite Hnone in Hdt. discriminate.
    + apply (IH Hin).
Qed.

Lemma build_items_first_undated (before after : list program) (item : program)
    (dts : list datetime) (rss_items : list RSSItem) :
  Forall2 (fun item dt => strptime (date item) = ok dt) before dts ->
  date item = None ->
  build_items (before ++ item :: after) rss_items = throw strptime_none_error.
Proof.
  intros H Hnone. revert rss_items.
  induction H as [|item' dt before dts Hdt _ IH]; intros rss_items.
  - cbn [app build_items]. rewrite Hnone. reflexivity.
  - cbn [app build_items]. rewrite Hdt. cbn [rbind]. apply IH.
Qed.

(** C2.  When a record given to [build_rss_feed] has no date, the call
    raises before anything is written: the exception comes from the parsing
    of a timestamp, and it is the TypeError of the absent date when the
    records before it have dates that parse.  Equivalently, when
    [build_rss_feed] returns normally, every record has a date. *)
Theorem undated_record_crashes_serializer (w : World) (title link description : string)
    (items : list program) (filename : string) (st : state) :
  ((exists item, In item items /\ date item = None) ->
   exists e,
     build_rss_feed w title link description items filename st = (throw e, st)
     /\ raised_by_strptime e)
  /\ (forall before item after dts,
        items = before ++ item :: after ->
        Forall2 (fun item dt => strptime (date item) = ok dt) before dts ->
        date item = None ->
        build_rss_feed w title link description items filename st
          = (throw strptime_none_error, st))
  /\ (forall st',
        build_rss_feed w title link description items filename st = (ok tt, st') ->
        Forall (fun item => date item <> None) items).
Proof.
  unfold build_rss_feed, bind, lift. split; [|split].
  - intros H. destruct (build_items_undated items [] H) as (e & -> & He).
    exists e. split; [reflexivity|exact He].
  - intros before item after dts -> Hbefore Hnone.
    rewrite (build_items_first_undated before after item dts [] Hbefore Hnone).
    reflexivity.
  - intros st' H. destruct (build_items items []) as [e|rss_items] eqn:Hitems;
      [discriminate|]. exact (build_items_ok_inv _ _ _ Hitems).
Qed.

Lemma undated_record_crashes_serializer_witness :
  build_rss_feed site1 "T" "U" "D" [dated_item; undated_item] "o.xml" st0
  = (throw strptime_none_error, st0).
Proof.
  destruct (undated_record_crashes_serializer site1 "T" "U" "D"
              [dated_item; undated_item] "o.xml" st0) as (_ & H & _).
  apply (H [dated_item] undated_item []
           [{| year := 2023; month := 7; day := 4; hour := 0; minute := 0; second := 0;
               microsecond := 0; tzinfo := None |}]).
  - reflexivity.
  - repeat constructor.
  - reflexivity.
Defined.

(** ** Dates written [YYYY-MM-DD] *)

Lemma range_cases (lo : Z) (len : nat) (n : Z) :
  lo <= n < lo + Z.of_nat len ->
  In n (map (fun k => lo + Z.of_nat k) (seq 0 len)).
Proof.
  intros H. apply in_map_iff. exists (Z.to_nat (n - lo)).
  split; [lia|]. apply in_seq. lia.
Qed.

(** Case analysis on a number known to lie in a range of [len] values
    that starts at [lo]. *)
Ltac each_in_range H lo len :=
  apply (range_cases lo len) in H; vm_compute in H;
  repeat (destruct H as [H|H]; [subst|]); [..|contradiction].

Ltac each_digit H := each_in_range H 0 10%nat.

Lemma is_digit_digit_char (n : Z) : 0 <= n <= 9 -> is_digit (digit_char n) = true.
Proof.
  intros H. assert (H' : 0 <= n < 0 + Z.of_nat 10) by lia.
  each_digit H'; reflexivity.
Qed.

Lemma digit_value_digit_char (n : Z) : 0 <= n <= 9 -> digit_value (digit_char n) = n.
Proof.
  intros H. assert (H' : 0 <= n < 0 + Z.of_nat 10) by lia.
  each_digit H'; reflexivity.
Qed.

Lemma days_in_month_le (y m : Z) : days_in_month y m <= 31.
Proof.
  unfold days_in_month.
  repeat match goal with |- context [if ?b then _ else _] => destruct b end; lia.
Qed.

Lemma re_month_two_digits {R} (m : Z) (r : list ascii) (K : Z -> list ascii -> option R) :
  1 <= m <= 12 ->
  re_month (two_digits m ++ "-"%char :: r)
    (fun m r => match r with
                | dash :: r => if Ascii.eqb dash "-" then K m r else None
                | [] => None
                end)
  = K m r.
Proof.
  intros H.
  assert (Hm : 1 <= m < 1 + Z.of_nat 12) by lia.
  each_in_range Hm 1 12%nat; vm_compute; destruct (K _ r); reflexivity.
Qed.

Lemma re_day_two_digits {R} (d : Z) (K : Z -> list ascii -> option R) :
  1 <= d <= 31 ->
  (forall d r, K d r <> None) ->
  re_day (two_digits d) K = K d [].
Proof.
  intros H HK.
  assert (Hd : exists a b, 0 <= a <= 3 /\ 0 <= b <= 9 /\ d = 10 * a + b).
  { exists (d / 10), (d mod 10). Z.div_mod_to_equations. lia. }
  destruct Hd as (a & b & Ha & Hb & ->).
  assert (Ha' : 0 <= a < 0 + Z.of_nat 4) by lia.
  assert (Hb' : 0 <= b < 0 + Z.of_nat 10) by lia.
  each_in_range Hb' 0 10%nat; each_in_range Ha' 0 4%nat; try lia;
    vm_compute; match goal with |- context [K ?d ?r] =>
           specialize (HK d r); destruct (K d r); [reflexivity|contradiction] end.
Qed.

Lemma four_digits_value (y : Z) :
  0 <= y <= 9999 ->
  0 <= y / 1000 <= 9 /\ 0 <= y / 100 mod 10 <= 9 /\ 0 <= y / 10 mod 10 <= 9
  /\ 0 <= y mod 10 <= 9
  /\ 1000 * (y / 1000) + 100 * (y / 100 mod 10) + 10 * (y / 10 mod 10) + y mod 10 = y.
Proof. intros H. Z.div_mod_to_equations. lia. Qed.

(** [strptime] reads the text of a day of the calendar as that day at
    midnight. *)
Lemma strptime_isoformat (y m d : Z) :
  calendar_date y m d -> strptime (Some (isoformat y m d)) = ok (midnight y m d).
Proof.
  intros (Hy & Hm & Hd).
  destruct (four_digits_value y ltac:(lia)) as (H1 & H2 & H3 & H4 & Hval).
  pose proof (days_in_month_le y m) as Hle.
  unfold strptime, isoformat. rewrite list_ascii_of_string_of_list_ascii.
  unfold four_digits. cbn [app]. unfold strptime_match.
  rewrite !is_digit_digit_char, !digit_value_digit_char by assumption.
  rewrite Hval. cbn [andb]. change (Ascii.eqb "-" "-") with true. cbv iota.
  rewrite (re_month_two_digits m _
             (fun m r => re_day r (fun d r => Some (y, m, d, r)))) by assumption.
  rewrite (re_day_two_digits d (fun d r => Some (y, m, d, r)))
    by (try discriminate; lia).
  replace (1 <=? y) with true by (symmetry; apply Z.leb_le; lia).
  replace (d <=? days_in_month y m) with true by (symmetry; apply Z.leb_le; lia).
  reflexivity.
Qed.

Lemma build_items_calendar (items : list program) (days : list (Z * Z * Z))
    (rss_items : list RSSItem) :
  Forall2 dated_on items days ->
  build_items items rss_items = ok (rss_items ++ zip_with entry_of items days).
Proof.
  intros H. revert rss_items.
  induction H as [|item [[y m] d] items days [Hdate Hcal] _ IH]; intros rss_items.
  - cbn. rewrite app_nil_r. reflexivity.
  - cbn [build_items zip_with]. rewrite Hdate, (strptime_isoformat y m d Hcal).
    cbn [rbind]. rewrite IH, <- app_assoc. reflexivity.
Qed.

(** The writing of the file: nothing happens when [open] raises;
    otherwise the file holds what the serializer wrote, and what it held
    before is lost, whether the serializer raises or not. *)
Lemma write_file_spec (w : World) (rss : RSS2) (filename : string) (st : state) :
  write_file w rss filename st =
    match open_error w filename with
    | Some e => (throw e, st)
    | None =>
        match snd (write_xml w rss) with
        | Some e => (throw e, written filename (fst (write_xml w rss)) st)
        | None => (ok tt, written filename (fst (write_xml w rss)) st)
        end
    end.
Proof.
  unfold write_file, bind, open_w, write_to, written.
  destruct (open_error w filename) as [e|]; [reflexivity|].
  cbn [trace files]. rewrite insert_insert_eq.
  destruct (snd (write_xml w rss)); reflexivity.
Qed.




(** ** The order of the dates *)

Lemma two_digits_value (n : Z) :
  0 <= n <= 99 ->
  0 <= n / 10 <= 9 /\ 0 <= n mod 10 <= 9 /\ 10 * (n / 10) + n mod 10 = n.
Proof. intros H. Z.div_mod_to_equations. lia. Qed.

Lemma ymd_of_isoformat (y m d : Z) :
  0 <= y <= 9999 -> 0 <= m <= 99 -> 0 <= d <= 99 ->
  ymd_of (isoformat y m d) = (y, m, d).
Proof.
  intros Hy Hm Hd.
  destruct (four_digits_value y Hy) as (? & ? & ? & ? & Hyv).
  destruct (two_digits_value m Hm) as (? & ? & Hmv).
  destruct (two_digits_value d Hd) as (? & ? & Hdv).
  unfold ymd_of, isoformat. rewrite list_ascii_of_string_of_list_ascii.
  cbn [four_digits two_digits app].
  rewrite !digit_value_digit_char by assumption.
  rewrite Hyv, Hmv, Hdv. reflexivity.
Qed.

Lemma compare_digit_char (a b : Z) :
  0 <= a <= 9 -> 0 <= b <= 9 ->
  Ascii.compare (digit_char a) (digit_char b) = (a ?= b).
Proof.
  intros Ha Hb.
  assert (Ha' : 0 <= a < 0 + Z.of_nat 10) by lia.
  assert (Hb' : 0 <= b < 0 + Z.of_nat 10) by lia.
  each_digit Ha'; each_digit Hb'; reflexivity.
Qed.

(** The comparison of two texts of dates is the comparison of the years,
    then of the months, then of the days. *)
Lemma compare_isoformat (y m d y' m' d' : Z) :
  0 <= y <= 9999 -> 0 <= m <= 99 -> 0 <= d <= 99 ->
  0 <= y' <= 9999 -> 0 <= m' <= 99 -> 0 <= d' <= 99 ->
  String.compare (isoformat y m d) (isoformat y' m' d') =
    match y ?= y' with
    | Eq => match m ?= m' with
            | Eq => d ?= d'
            | c => c
            end
    | c => c
    end.
Proof.
  intros Hy Hm Hd Hy' Hm' Hd'.
  destruct (four_digits_value y Hy) as (? & ? & ? & ? & Hyv).
  destruct (two_digits_value m Hm) as (? & ? & Hmv).
  destruct (two_digits_value d Hd) as (? & ? & Hdv).
  destruct (four_digits_value y' Hy') as (? & ? & ? & ? & Hyv').
  destruct (two_digits_value m' Hm') as (? & ? & Hmv').
  destruct (two_digits_value d' Hd') as (? & ? & Hdv').
  unfold isoformat. cbn [four_digits two_digits app string_of_list_ascii String.compare].
  rewrite !compare_digit_char by assumption.
  change (Ascii.compare "-" "-") with Eq. cbv iota.
  revert Hyv Hmv Hdv Hyv' Hmv' Hdv'.
  generalize dependent (y / 1000). generalize dependent (y / 100 mod 10).
  generalize dependent (y / 10 mod 10). generalize dependent (y mod 10).
  generalize dependent (m / 10). generalize dependent (m mod 10).
  generalize dependent (d / 10). generalize dependent (d mod 10).
  generalize dependent (y' / 1000). generalize dependent (y' / 100 mod 10).
  generalize dependent (y' / 10 mod 10). generalize dependent (y' mod 10).
  generalize dependent (m' / 10). generalize dependent (m' mod 10).
  generalize dependent (d' / 10). generalize dependent (d' mod 10).
  intros. subst y m d y' m' d'.
  repeat match goal with
         | |- context [match ?a ?= ?b with _ => _ end] =>
             destruct (Z.compare_spec a b); try subst
         end;
    try reflexivity; try lia;
    symmetry; first [apply Z.compare_eq_iff | apply Z.compare_lt_iff | apply Z.compare_gt_iff];
    lia.
Qed.

(** On texts of dates the order of strings is the order of the
    calendar. *)
Lemma ltb_date_text (a b : string) :
  is_date_text a -> is_date_text b ->
  (String.ltb a b = true <-> chronologically_before (ymd_of a) (ymd_of b)).
Proof.
  intros (y & m & d & Hy & Hm & Hd & ->) (y' & m' & d' & Hy' & Hm' & Hd' & ->).
  rewrite !ymd_of_isoformat by assumption.
  unfold String.ltb. rewrite compare_isoformat by assumption.
  unfold chronologically_before.
  destruct (Z.compare_spec y y'); [destruct (Z.compare_spec m m');
    [destruct (Z.compare_spec d d')|..]|..];
    split; intros; try discriminate; try reflexivity; lia.
Qed.

Lemma ltb_asymmetric (a b : string) : String.ltb a b = true -> String.ltb b a = false.
Proof.
  unfold String.ltb. rewrite (String.compare_antisym a b).
  destruct (String.compare b a); cbn; congruence.
Qed.


(** ** The sort *)

Lemma insert_program_ok (p : program) (l : list program) :
  dated p -> Forall dated l ->
  exists out,
    insert_program p l = ok out
    /\ Permutation out (p :: l)
    /\ (forall x, not_before x p -> HdRel not_before x l -> HdRel not_before x out)
    /\ (Sorted not_before l -> Sorted not_before out).
Proof.
  intros Hp Hl. induction Hl as [|q l Hq Hl IH].
  - exists [p]. repeat split; auto.
  - destruct IH as (out & Hout & Hperm & Hhd & Hsorted).
    unfold dated in Hp, Hq. cbn [insert_program].
    destruct (date p) as [a|] eqn:Ha; [|contradiction].
    destruct (date q) as [b|] eqn:Hb; [|contradiction].
    cbn [py_lt rbind]. destruct (String.ltb a b) eqn:Hlt.
    + rewrite Hout. cbn [rbind]. exists (q :: out). split; [reflexivity|].
      split; [rewrite perm_swap; constructor; exact Hperm|].
      split.
      * intros x _ Hx. inversion Hx; subst. constructor. assumption.
      * intros Hs. inversion Hs as [|? ? Hs' Hhd']; subst.
        constructor; [exact (Hsorted Hs')|].
        apply Hhd; [|exact Hhd'].
        unfold not_before. rewrite Ha, Hb. cbn. rewrite (ltb_asymmetric _ _ Hlt).
        reflexivity.
    + exists (p :: q :: l). split; [reflexivity|]. split; [reflexivity|].
      split.
      * intros x Hx _. constructor. exact Hx.
      * intros Hs. constructor; [exact Hs|]. constructor.
        unfold not_before. rewrite Ha, Hb. cbn. rewrite Hlt. reflexivity.
Qed.

Lemma Forall_dated_perm (l l' : list program) :
  Permutation l l' -> Forall dated l' -> Forall dated l.
Proof.
  intros Hp H. apply List.Forall_forall. intros x Hx.
  rewrite List.Forall_forall in H. apply H. apply (Permutation_in _ Hp Hx).
Qed.

(** On dated records the sort returns a descending arrangement of its
    input. *)
Lemma sorted_by_date_reverse_ok (programs : list program) :
  Forall dated programs ->
  exists out,
    sorted_by_date_reverse programs = ok out
    /\ Permutation out programs
    /\ Sorted not_before out.
Proof.
  intros H. induction H as [|p l Hp Hl IH].
  - exists []. repeat split; constructor.
  - destruct IH as (sorted & Hsorted & Hperm & Hs).
    cbn [sorted_by_date_reverse]. rewrite Hsorted. cbn [rbind].
    destruct (insert_program_ok p sorted Hp (Forall_dated_perm _ _ Hperm Hl))
      as (out & Hout & Hperm' & _ & Hs').
    exists out. split; [exact Hout|]. split; [|exact (Hs' Hs)].
    rewrite Hperm'. constructor. exact Hperm.
Qed.







(** ** Failed requests *)

Lemma emits_nil (st : state) : emits [] st = st.
Proof. destruct st. unfold emits. cbn. rewrite app_nil_r. reflexivity. Qed.

Lemma emits_emits (evs1 evs2 : list event) (st : state) :
  emits evs2 (emits evs1 st) = emits (evs1 ++ evs2) st.
Proof. unfold emits. cbn. rewrite app_assoc. reflexivity. Qed.

Lemma fetch_only_silent {A} (c : M A) :
  (forall st, snd (c st) = st) -> fetch_only c.
Proof.
  intros H st. exists []. rewrite H, emits_nil.
  split; [reflexivity|]. split; [intros ? ? []|]. intros ? ? [].
Qed.

Lemma fetch_only_ret {A} (a : A) : fetch_only (ret a).
Proof. apply fetch_only_silent. reflexivity. Qed.

Lemma fetch_only_lift {A} (r : result A) : fetch_only (lift r).
Proof. apply fetch_only_silent. reflexivity. Qed.

Lemma fetch_only_log (lvl : level) (msg : log_msg) : fetch_only (log lvl msg).
Proof.
  intros st. exists [Log lvl msg]. split; [reflexivity|].
  split; [intros ? ? [H|[]]; discriminate|]. intros ? ? [H|[]]; discriminate.
Qed.

Lemma fetch_only_http_get (w : World) (url : string) : fetch_only (http_get w url).
Proof.
  intros st. unfold http_get.
  destruct (requests_get w (trace st) url) as [e|page].
  - exists [Get url (Some e)]. split; [reflexivity|].
    split; [intros ? ? [H|[]]; discriminate|].
    intros url' e' [[= <- <-]|[]]. split; [reflexivity|].
    exists []. split; [reflexivity|]. intros ? ? [].
  - exists [Get url None]. split; [reflexivity|].
    split; [intros ? ? [H|[]]; discriminate|]. intros ? ? [H|[]]; discriminate.
Qed.

Lemma fetch_only_bind {A B} (c : M A) (k : A -> M B) :
  fetch_only c -> (forall a, fetch_only (k a)) -> fetch_only (bind c k).
Proof.
  intros Hc Hk st. destruct (Hc st) as (evs1 & Hst1 & Hnw1 & Hfail1).
  unfold bind. destruct (c st) as [[e|a] st1]; cbn [fst snd] in *.
  - exists evs1. split; [exact Hst1|]. split; [exact Hnw1|].
    intros url e' Hin. destruct (Hfail1 url e' Hin) as [[= ->] Hpre].
    split; [reflexivity|exact Hpre].
  - destruct (Hk a st1) as (evs2 & Hst2 & Hnw2 & Hfail2).
    assert (Hnone : no_failed_get evs1).
    { intros url e Hin. destruct (Hfail1 url e Hin) as [Habs _]. discriminate. }
    exists (evs1 ++ evs2). split; [|split].
    + rewrite Hst2, Hst1. apply emits_emits.
    + intros f content Hin. apply in_app_or in Hin as [Hin|Hin];
        [exact (Hnw1 _ _ Hin)|exact (Hnw2 _ _ Hin)].
    + intros url e Hin. apply in_app_or in Hin as [Hin|Hin];
        [destruct (Hnone _ _ Hin)|].
      destruct (Hfail2 url e Hin) as (Hres & pre & -> & Hpre).
      split; [exact Hres|]. exists (evs1 ++ pre).
      split; [apply app_assoc|].
      intros url' e' Hin'. apply in_app_or in Hin' as [Hin'|Hin'];
        [exact (Hnone _ _ Hin')|exact (Hpre _ _ Hin')].
Qed.

Ltac fetch_only_step :=
  first [ apply fetch_only_ret
        | apply fetch_only_lift
        | apply fetch_only_log
        | apply fetch_only_http_get
        | apply fetch_only_bind; [|intros ?]
        | match goal with
          | |- fetch_only (if ?b then _ else _) => destruct b
          | |- fetch_only (match ?x with Some _ => _ | None => _ end) => destruct x
          end ].

Lemma fetch_only_visit (w : World) (url : string) (page_link : Tag)
    (programs : list program) :
  fetch_only (visit w url page_link programs).
Proof. unfold visit. repeat (cbv zeta; fetch_only_step). Qed.

Lemma fetch_only_visit_all (w : World) (url : string) (page_links : list Tag)
    (programs : list program) :
  fetch_only (visit_all w url page_links programs).
Proof.
  revert programs. induction page_links as [|page_link rest IH]; intros programs.
  - apply fetch_only_ret.
  - cbn [visit_all]. apply fetch_only_bind; [apply fetch_only_visit|exact IH].
Qed.

Lemma fetch_only_get_programs (w : World) (url : string) :
  fetch_only (get_programs w url).
Proof.
  unfold get_programs.
  apply fetch_only_bind; [apply fetch_only_http_get|intros content_main].
  cbv zeta. apply fetch_only_bind; [apply fetch_only_visit_all|intros programs].
  repeat fetch_only_step.
Qed.

(** The serializer makes no request. *)
Lemma build_rss_feed_events (w : World) (feed_title feed_link feed_description : string)
    (items : list program) (filename : string) (st : state) :
  exists evs,
    trace (snd (build_rss_feed w feed_title feed_link feed_description items filename st))
      = trace st ++ evs
    /\ no_failed_get evs.
Proof.
  unfold build_rss_feed, bind, lift.
  destruct (build_items items []) as [e|rss_items]; cbn [snd trace].
  - exists []. split; [rewrite app_nil_r; reflexivity|]. intros ? ? [].
  - rewrite write_file_spec.
    destruct (open_error w filename) as [e|].
    + exists []. split; [cbn; rewrite app_nil_r; reflexivity|]. intros ? ? [].
    + destruct (snd (write_xml w _)); eexists; (split; [reflexivity|]);
        intros ? ? [H|[]]; discriminate.
Qed.

(** The effects of [run] and what a failed request among them implies. *)
Lemma run_failed_get (w : World) (environ config_file : gmap string string) (st : state) :
  exists evs,
    trace (snd (run w environ config_file st)) = trace st ++ evs
    /\ forall url e, In (Get url (Some e)) evs ->
         fst (run w environ config_file st) = throw e
         /\ snd (run w environ config_file st) = emits evs st
         /\ no_write evs
         /\ exists pre, evs = pre ++ [Get url (Some e)] /\ no_failed_get pre.
Proof.
  assert (Hsilent : forall (r : result unit) (st' : state),
            st' = st -> exists evs,
              trace (snd (r, st')) = trace st ++ evs
              /\ forall url e, In (Get url (Some e)) evs ->
                   fst (r, st') = throw e
                   /\ snd (r, st') = emits evs st
                   /\ no_write evs
                   /\ exists pre, evs = pre ++ [Get url (Some e)] /\ no_failed_get pre).
  { intros r st' ->. exists []. split; [cbn; rewrite app_nil_r; reflexivity|].
    intros ? ? []. }
  unfold run, bind, lift.
  destruct (load_config environ config_file) as [e|config]; [apply Hsilent; reflexivity|].
  destruct (dict_get config "START_URL") as [e|start_url];
    [apply Hsilent; reflexivity|].
  destruct (fetch_only_get_programs w start_url st) as (evs1 & Hst1 & Hnw1 & Hfail1).
  destruct (get_programs w start_url st) as [[e|program_list] st1] eqn:Hget;
    cbn [fst snd] in *.
  - exists evs1. split; [rewrite Hst1; reflexivity|].
    intros url e' Hin. destruct (Hfail1 url e' Hin) as [[= ->] Hpre].
    split; [reflexivity|]. split; [exact Hst1|]. split; [exact Hnw1|exact Hpre].
  - assert (Hnone : no_failed_get evs1).
    { intros url e Hin. destruct (Hfail1 url e Hin) as [Habs _]. discriminate. }
    assert (Hrest : forall (c : M unit),
              (exists evs2, trace (snd (c st1)) = trace st1 ++ evs2 /\ no_failed_get evs2) ->
              exists evs,
                trace (snd (c st1)) = trace st ++ evs
                /\ forall url e, In (Get url (Some e)) evs ->
                     fst (c st1) = throw e
                     /\ snd (c st1) = emits evs st
                     /\ no_write evs
                     /\ exists pre, evs = pre ++ [Get url (Some e)] /\ no_failed_get pre).
    { intros c (evs2 & Htr & Hnone2). exists (evs1 ++ evs2).
      split; [rewrite Htr, Hst1; cbn; apply eq_sym, app_assoc|].
      intros url e Hin. apply in_app_or in Hin as [Hin|Hin];
        [destruct (Hnone _ _ Hin)|destruct (Hnone2 _ _ Hin)]. }
    assert (Hstop : forall e : exn,
              exists evs2, trace (snd (@inl exn unit e, st1)) = trace st1 ++ evs2
                           /\ no_failed_get evs2).
    { intros e. exists []. split; [cbn; rewrite app_nil_r; reflexivity|]. intros ? ? []. }
    destruct (dict_get config "PROGRAM_TITLE") as [e|program_title];
      [exact (Hrest (fun st => (inl e, st)) (Hstop e))|].
    destruct (dict_get config "PROGRAM_URL") as [e|program_url];
      [exact (Hrest (fun st => (inl e, st)) (Hstop e))|].
    destruct (dict_get config "PROGRAM_DESC") as [e|program_desc];
      [exact (Hrest (fun st => (inl e, st)) (Hstop e))|].
    destruct (dict_get config "OUTPUT_FILE") as [e|output_file];
      [exact (Hrest (fun st => (inl e, st)) (Hstop e))|].
    apply (Hrest (build_rss_feed w program_title program_url program_desc
                    program_list output_file)).
    apply build_rss_feed_events.
Qed.

(** C8.  [main] always returns, with a state and no exception.  When one
    of its requests, for the listing page or for a detail page, raises, that
    request is the last one made: after it [main] only logs the exception
    at the critical level.  No request failed before, no file has been
    written and the files are as they were. *)
Theorem failed_request_aborts_the_run (w : World)
    (environ config_file : gmap string string) (st : state) :
  exists evs,
    trace (main w environ config_file st) = trace st ++ evs
    /\ forall url e, In (Get url (Some e)) evs ->
         files (main w environ config_file st) = files st
         /\ exists pre,
              evs = pre ++ [Get url (Some e); Log CRITICAL (ErrorOccurred e)]
              /\ no_failed_get pre
              /\ no_write pre.
Proof.
  destruct (run_failed_get w environ config_file st) as (evs & Htrace & Hfail).
  unfold main.
  destruct (run w environ config_file st) as [[e|[]] st'] eqn:Hrun; cbn [fst snd] in *.
  - exists (evs ++ [Log CRITICAL (ErrorOccurred e)]). split.
    + cbn [emit trace]. rewrite Htrace. apply eq_sym, app_assoc.
    + intros url e' Hin. apply in_app_or in Hin as [Hin|[Hin|[]]]; [|discriminate].
      destruct (Hfail url e' Hin) as ([= ->] & -> & Hnw & pre & -> & Hpre).
      split; [reflexivity|]. exists pre.
      split; [rewrite <- app_assoc; reflexivity|]. split; [exact Hpre|].
      intros f c Hin'. apply (Hnw f c). apply in_or_app. left. exact Hin'.
  - exists evs. split; [exact Htrace|].
    intros url e Hin. destruct (Hfail url e Hin) as [Habs _]. discriminate.
Qed.

Lemma failed_request_aborts_the_run_witness :
  files (main site_down ∅ config1 st0) = ∅
  /\ exists pre,
       trace (main site_down ∅ config1 st0)
         = pre ++ [Get "http://h/detail_emission.php?id=2"
                     (Some (RequestException "timed out"));
                   Log CRITICAL (ErrorOccurred (RequestException "timed out"))]
       /\ no_failed_get pre
       /\ no_write pre.
Proof.
  destruct (failed_request_aborts_the_run site_down ∅ config1 st0)
    as (evs & Htrace & Hfail).
  assert (Hmain : trace (main site_down ∅ config1 st0)
                  = [Get "http://h/liste.php" None;
                     Log INFO (Parsing "http://h/detail_emission.php?id=1");
                     Get "http://h/detail_emission.php?id=1" None;
                     Log INFO (Parsing "http://h/detail_emission.php?id=2");
                     Get "http://h/detail_emission.php?id=2"
                       (Some (RequestException "timed out"));
                     Log CRITICAL (ErrorOccurred (RequestException "timed out"))])
    by (vm_compute; reflexivity).
  cbn [trace st0 app] in Htrace. rewrite <- Htrace in Hfail.
  destruct (Hfail "http://h/detail_emission.php?id=2" (RequestException "timed out"))
    as (Hfiles & pre & Hpre & Hnone & Hnw).
  { rewrite Hmain. cbn [In]. tauto. }
  split; [exact Hfiles|]. exists pre. split; [exact Hpre|]. split; assumption.
Defined.

(** ** The dates given by the extractor *)

Lemma digit_value_range (c : ascii) : is_digit c = true -> 0 <= digit_value c <= 9.
Proof.
  unfold is_digit, digit_value. intros H. apply andb_prop in H as [H1 H2].
  apply Nat.leb_le in H1, H2. lia.
Qed.

Lemma digit_char_digit_value (c : ascii) :
  is_digit c = true -> digit_char (digit_value c) = c.
Proof.
  destruct c as [[] [] [] [] [] [] [] []]; vm_compute; intros H;
    first [discriminate H | reflexivity].
Qed.

Lemma four_digits_of_number (a b c e : Z) :
  0 <= a <= 9 -> 0 <= b <= 9 -> 0 <= c <= 9 -> 0 <= e <= 9 ->
  (1000 * a + 100 * b + 10 * c + e) / 1000 = a
  /\ (1000 * a + 100 * b + 10 * c + e) / 100 mod 10 = b
  /\ (1000 * a + 100 * b + 10 * c + e) / 10 mod 10 = c
  /\ (1000 * a + 100 * b + 10 * c + e) mod 10 = e.
Proof. intros. Z.div_mod_to_equations. lia. Qed.

Lemma two_digits_of_number (a b : Z) :
  0 <= a <= 9 -> 0 <= b <= 9 ->
  (10 * a + b) / 10 = a /\ (10 * a + b) mod 10 = b.
Proof. intros. Z.div_mod_to_equations. lia. Qed.

Lemma isoformat_of_digits (y1 y2 y3 y4 m1 m2 d1 d2 : ascii) :
  is_digit y1 = true -> is_digit y2 = true -> is_digit y3 = true -> is_digit y4 = true ->
  is_digit m1 = true -> is_digit m2 = true -> is_digit d1 = true -> is_digit d2 = true ->
  is_date_text (string_of_list_ascii [y1; y2; y3; y4; "-"; m1; m2; "-"; d1; d2]%char).
Proof.
  intros Hy1 Hy2 Hy3 Hy4 Hm1 Hm2 Hd1 Hd2.
  pose proof (digit_value_range _ Hy1). pose proof (digit_value_range _ Hy2).
  pose proof (digit_value_range _ Hy3). pose proof (digit_value_range _ Hy4).
  pose proof (digit_value_range _ Hm1). pose proof (digit_value_range _ Hm2).
  pose proof (digit_value_range _ Hd1). pose proof (digit_value_range _ Hd2).
  exists (1000 * digit_value y1 + 100 * digit_value y2 + 10 * digit_value y3
          + digit_value y4),
         (10 * digit_value m1 + digit_value m2),
         (10 * digit_value d1 + digit_value d2).
  split; [lia|]. split; [lia|]. split; [lia|].
  unfold isoformat, four_digits, two_digits. cbn [app].
  destruct (four_digits_of_number (digit_value y1) (digit_value y2)
              (digit_value y3) (digit_value y4)) as (-> & -> & -> & ->);
    [assumption..|].
  destruct (two_digits_of_number (digit_value m1) (digit_value m2)) as (-> & ->);
    [assumption..|].
  destruct (two_digits_of_number (digit_value d1) (digit_value d2)) as (-> & ->);
    [assumption..|].
  rewrite !digit_char_digit_value by assumption. reflexivity.
Qed.

(** A date given by the date pattern is a text [YYYY-MM-DD]. *)
Lemma date_search_is_date_text (s : string) (groups : list string) :
  date_search s = Some groups -> is_date_text (join "-" groups).
Proof.
  assert (H : forall r, date_groups_backwards r = Some groups ->
                        is_date_text (join "-" groups)).
  { intros r. unfold date_groups_backwards.
    destruct r as [|e3 [|e2 [|e1 [|dot [|d2 [|d1 [|u3 [|m2 [|m1 [|u2
      [|y4 [|y3 [|y2 [|y1 [|u1 r]]]]]]]]]]]]]]]; try discriminate.
    match goal with |- context [if ?b then _ else _] => destruct b eqn:Hb end;
      [|discriminate].
    intros [= <-].
    repeat match type of Hb with
           | (_ && _)%bool = true => apply andb_prop in Hb as [Hb ?]
           end.
    apply isoformat_of_digits; assumption. }
  unfold date_search.
  destruct (date_groups_backwards (backwards s)) as [g|] eqn:Hg.
  - intros [= <-]. exact (H _ Hg).
  - destruct (backwards s) as [|c r]; [discriminate|].
    destruct (Ascii.eqb c newline); [apply H|discriminate].
Qed.

(** ** Undated records and the sort *)

Lemma insert_program_cases (p : program) (l : list program) :
  insert_program p l = throw TypeError_lt
  \/ exists out,
       insert_program p l = ok out
       /\ Permutation out (p :: l)
       /\ (forall q l', l = q :: l' -> dated p /\ dated q).
Proof.
  induction l as [|q l IH].
  - right. exists [p]. split; [reflexivity|]. split; [reflexivity|]. discriminate.
  - cbn [insert_program]. unfold dated.
    destruct (date p) as [a|] eqn:Ha; [|left; reflexivity].
    destruct (date q) as [b|] eqn:Hb; [|left; reflexivity].
    cbn [py_lt rbind]. destruct (String.ltb a b).
    + destruct IH as [->|(out & -> & Hperm & _)]; [left; reflexivity|].
      right. exists (q :: out). split; [reflexivity|].
      split; [rewrite perm_swap; constructor; exact Hperm|].
      intros q' l' [= <- <-]. rewrite Hb. split; discriminate.
    + right. exists (p :: q :: l). split; [reflexivity|]. split; [reflexivity|].
      intros q' l' [= <- <-]. rewrite Hb. split; discriminate.
Qed.

Lemma sorted_by_date_reverse_cases (programs : list program) :
  sorted_by_date_reverse programs = throw TypeError_lt
  \/ exists out,
       sorted_by_date_reverse programs = ok out
       /\ Permutation out programs
       /\ ((2 <= length programs)%nat -> Forall dated programs).
Proof.
  induction programs as [|p rest IH].
  - right. exists []. split; [reflexivity|]. split; [reflexivity|]. cbn. lia.
  - cbn [sorted_by_date_reverse].
    destruct IH as [->|(sorted & -> & Hperm & Hdated)]; [left; reflexivity|].
    cbn [rbind].
    destruct (insert_program_cases p sorted) as [->|(out & -> & Hperm' & Hhead)];
      [left; reflexivity|].
    right. exists out. split; [reflexivity|].
    split; [rewrite Hperm'; constructor; exact Hperm|].
    intros Hlen. destruct sorted as [|q sorted'].
    + apply Permutation_nil in Hperm. subst rest. cbn in Hlen. lia.
    + destruct (Hhead q sorted' eq_refl) as [Hp Hq].
      constructor; [exact Hp|].
      destruct rest as [|r1 [|r2 rest']].
      * apply Permutation_sym, Permutation_nil in Hperm. discriminate.
      * apply Permutation_sym, Permutation_length_1_inv in Hperm.
        injection Hperm as -> _. constructor; [exact Hq|constructor].
      * apply Hdated. cbn. lia.
Qed.

(** With two records or more, one of them undated, the sort raises: the
    comparison of None with a key is a TypeError. *)
Lemma sorted_by_date_reverse_undated (programs : list program) :
  (2 <= length programs)%nat ->
  (exists p, In p programs /\ date p = None) ->
  sorted_by_date_reverse programs = throw TypeError_lt.
Proof.
  intros Hlen (p & Hin & Hnone).
  destruct (sorted_by_date_reverse_cases programs) as [H|(out & _ & _ & Hdated)];
    [exact H|].
  specialize (Hdated Hlen). rewrite List.Forall_forall in Hdated.
  destruct (Hdated p Hin Hnone).
Qed.

(** * Further properties of the code *)

(** ** load_config *)

(** X1.  The value of the file is looked up before the environment is
    read: when the file lacks one of the five keys, [load_config] raises
    KeyError for the first of them that is missing, in the order of the
    assignments, whatever the environment holds, also a value for that
    key. *)
Theorem missing_key_raises_KeyError (environ config_file : gmap string string)
    (k : string) :
  In k config_keys ->
  config_file !! k = None ->
  exists before missing after,
    config_keys = before ++ missing :: after
    /\ Forall (fun k' => is_Some (config_file !! k')) before
    /\ config_file !! missing = None
    /\ load_config environ config_file = throw (KeyError missing).
Proof.
  intros Hk Hnone. unfold load_config, merge_key, getitem.
  destruct (config_file !! "START_URL") as [v1|] eqn:H1;
    [|exists [], "START_URL", (tail config_keys); repeat split; auto].
  destruct (config_file !! "OUTPUT_FILE") as [v2|] eqn:H2;
    [|exists ["START_URL"], "OUTPUT_FILE", (drop 2 config_keys);
      repeat split; auto; repeat constructor; eauto].
  destruct (config_file !! "PROGRAM_TITLE") as [v3|] eqn:H3;
    [|exists ["START_URL"; "OUTPUT_FILE"], "PROGRAM_TITLE", (drop 3 config_keys);
      repeat split; auto; repeat constructor; eauto].
  destruct (config_file !! "PROGRAM_URL") as [v4|] eqn:H4;
    [|exists ["START_URL"; "OUTPUT_FILE"; "PROGRAM_TITLE"], "PROGRAM_URL",
        (drop 4 config_keys); repeat split; auto; repeat constructor; eauto].
  destruct (config_file !! "PROGRAM_DESC") as [v5|] eqn:H5;
    [|exists ["START_URL"; "OUTPUT_FILE"; "PROGRAM_TITLE"; "PROGRAM_URL"],
        "PROGRAM_DESC", []; repeat split; auto; repeat constructor; eauto].
  exfalso. revert k Hk Hnone. each_key; congruence.
Qed.

Lemma missing_key_raises_KeyError_witness :
  exists before after,
    config_keys = before ++ "PROGRAM_URL" :: after
    /\ load_config {[ "PROGRAM_URL" := "http://h/" ]} (delete "PROGRAM_URL" config1)
       = throw (KeyError "PROGRAM_URL").
Proof.
  destruct (missing_key_raises_KeyError {[ "PROGRAM_URL" := "http://h/" ]}
              (delete "PROGRAM_URL" config1) "PROGRAM_URL")
    as (before & missing & after & Hkeys & Hbefore & Hmissing & Hload).
  - unfold config_keys; cbn [In]; tauto.
  - reflexivity.
  - assert (Hload' : load_config {[ "PROGRAM_URL" := "http://h/" ]}
                       (delete "PROGRAM_URL" config1) = throw (KeyError "PROGRAM_URL"))
      by (vm_compute; reflexivity).
    rewrite Hload' in Hload. injection Hload as <-.
    exists before, after. split; [exact Hkeys|reflexivity].
Defined.

Ltac is_key := unfold config_keys; cbn [In]; tauto.

(** The three outcomes of [load_config]. *)
Lemma load_config_outcomes (environ config_file : gmap string string) :
  ((forall k, In k config_keys -> is_Some (config_file !! k))
   /\ (forall k, In k config_keys -> resolved environ config_file k <> "")
   /\ load_config environ config_file
      = ok (map (fun k => (k, resolved environ config_file k)) config_keys))
  \/ (exists k, In k config_keys /\ config_file !! k = None
                /\ load_config environ config_file = throw (KeyError k))
  \/ ((forall k, In k config_keys -> is_Some (config_file !! k))
      /\ (exists k, In k config_keys /\ resolved environ config_file k = "")
      /\ load_config environ config_file = throw format_error).
Proof.
  destruct (config_file !! "START_URL") as [v1|] eqn:H1;
    [|right; left; exists "START_URL"; split; [is_key|];
      split; [exact H1|]; unfold load_config, merge_key, getitem; rewrite H1; reflexivity].
  destruct (config_file !! "OUTPUT_FILE") as [v2|] eqn:H2;
    [|right; left; exists "OUTPUT_FILE"; split; [is_key|];
      split; [exact H2|]; unfold load_config, merge_key, getitem; rewrite H1, H2;
      reflexivity].
  destruct (config_file !! "PROGRAM_TITLE") as [v3|] eqn:H3;
    [|right; left; exists "PROGRAM_TITLE"; split; [is_key|];
      split; [exact H3|]; unfold load_config, merge_key, getitem; rewrite H1, H2, H3;
      reflexivity].
  destruct (config_file !! "PROGRAM_URL") as [v4|] eqn:H4;
    [|right; left; exists "PROGRAM_URL"; split; [is_key|];
      split; [exact H4|]; unfold load_config, merge_key, getitem;
      rewrite H1, H2, H3, H4; reflexivity].
  destruct (config_file !! "PROGRAM_DESC") as [v5|] eqn:H5;
    [|right; left; exists "PROGRAM_DESC"; split; [is_key|];
      split; [exact H5|]; unfold load_config, merge_key, getitem;
      rewrite H1, H2, H3, H4, H5; reflexivity].
  assert (Hfile : forall k, In k config_keys -> is_Some (config_file !! k))
    by (each_key; eauto).
  rewrite (load_config_spec _ _ Hfile).
  destruct (forallb nonempty (map (resolved environ config_file) config_keys)) eqn:Hne.
  - left. split; [exact Hfile|]. split; [|reflexivity].
    apply forallb_nonempty_resolved, Hne.
  - right. right. split; [exact Hfile|]. split; [|reflexivity].
    destruct (resolved environ config_file "START_URL") eqn:E1;
      [exists "START_URL"; split; [is_key|exact E1]|].
    destruct (resolved environ config_file "OUTPUT_FILE") eqn:E2;
      [exists "OUTPUT_FILE"; split; [is_key|exact E2]|].
    destruct (resolved environ config_file "PROGRAM_TITLE") eqn:E3;
      [exists "PROGRAM_TITLE"; split; [is_key|exact E3]|].
    destruct (resolved environ config_file "PROGRAM_URL") eqn:E4;
      [exists "PROGRAM_URL"; split; [is_key|exact E4]|].
    destruct (resolved environ config_file "PROGRAM_DESC") eqn:E5;
      [exists "PROGRAM_DESC"; split; [is_key|exact E5]|].
    exfalso. unfold config_keys in Hne. cbn [map forallb] in Hne.
    rewrite E1, E2, E3, E4, E5 in Hne. discriminate.
Qed.

(** X2.  The configuration error that [load_config] builds is never
    raised: whatever the environment and the file, the result is a
    configuration, the KeyError of a key that the file lacks, or the
    TypeError of the [%] operator when a key has an empty value; it is
    never an [Exception] with the message of the program. *)
Theorem load_config_never_raises_its_own_error
    (environ config_file : gmap string string) :
  (forall msg, load_config environ config_file <> throw (Exception msg))
  /\ ((exists config, load_config environ config_file = ok config)
      \/ (exists k, In k config_keys /\ config_file !! k = None
                    /\ load_config environ config_file = throw (KeyError k))
      \/ ((exists k, In k config_keys /\ resolved environ config_file k = "")
          /\ load_config environ config_file
             = throw (TypeError "not enough arguments for format string"))).
Proof.
  destruct (load_config_outcomes environ config_file)
    as [(_ & _ & H)|[(k & Hk & Hnone & H)|(_ & Hempty & H)]]; rewrite H.
  - split; [discriminate|]. left. eexists. reflexivity.
  - split; [discriminate|]. right. left. exists k. auto.
  - split; [discriminate|]. right. right. split; [exact Hempty|reflexivity].
Qed.

(** X3.  A configuration that [load_config] returns has the five keys, in
    the order of the assignments, each with the value of its environment
    variable if one is set and with the value of the file otherwise, and
    none of these values is empty. *)
Theorem returned_configuration_is_complete (environ config_file : gmap string string)
    (config : dict) :
  load_config environ config_file = ok config ->
  map fst config = config_keys
  /\ Forall (fun value => value <> "") (values config)
  /\ forall k, In k config_keys ->
       dict_get config k
       = ok (match environ !! k with
             | Some v => v
             | None => default "" (config_file !! k)
             end).
Proof.
  intros Hload.
  destruct (load_config_outcomes environ config_file)
    as [(_ & Hne & H)|[(k & _ & _ & H)|(_ & _ & H)]];
    rewrite H in Hload; try discriminate.
  injection Hload as <-. split; [reflexivity|]. split.
  - unfold values. cbn [map snd]. repeat constructor; apply Hne; is_key.
  - intros k Hk. exact (dict_get_resolved (resolved environ config_file) k Hk).
Qed.

Lemma returned_configuration_is_complete_witness :
  exists config,
    load_config {[ "OUTPUT_FILE" := "feed.xml" ]} config1 = ok config
    /\ map fst config = config_keys
    /\ dict_get config "OUTPUT_FILE" = ok "feed.xml"
    /\ dict_get config "PROGRAM_TITLE" = ok "T".
Proof.
  assert (Hload : load_config {[ "OUTPUT_FILE" := "feed.xml" ]} config1
                  = ok [("START_URL", "http://h/liste.php"); ("OUTPUT_FILE", "feed.xml");
                        ("PROGRAM_TITLE", "T"); ("PROGRAM_URL", "U");
                        ("PROGRAM_DESC", "D")])
    by (vm_compute; reflexivity).
  destruct (returned_configuration_is_complete _ _ _ Hload) as (Hkeys & _ & Hget).
  eexists. split; [exact Hload|]. split; [exact Hkeys|]. split.
  - rewrite Hget by is_key. reflexivity.
  - rewrite Hget by is_key. reflexivity.
Defined.

(** ** get_programs *)

Lemma requested_app (evs1 evs2 : list event) :
  requested (evs1 ++ evs2) = requested evs1 ++ requested evs2.
Proof.
  induction evs1 as [|[url r|lvl msg|f c] evs1 IH]; cbn; rewrite ?IH; reflexivity.
Qed.

Lemma incomplete_false (p : program) :
  incomplete p = false -> title p <> "" /\ description p <> "" /\ link p <> "".
Proof.
  unfold incomplete. intros H.
  apply orb_false_elim in H as [H Hl]. apply orb_false_elim in H as [Ht Hd].
  repeat split; intros Heq; rewrite Heq in *; discriminate.
Qed.

(** An iteration that returns normally: its effects, the URL it requested
    and the programs it leaves. *)
Lemma visit_ok (w : World) (url : string) (page_link : Tag)
    (programs programs' : list program) (st st' : state) :
  visit w url page_link programs st = (ok programs', st') ->
  exists evs,
    st' = emits evs st
    /\ resolvable w url page_link
    /\ requested evs = detail_urls w url [page_link]
    /\ (programs' = programs
        \/ exists p, programs' = programs ++ [p] /\ well_formed_record p
                     /\ detail_urls w url [page_link] = [page_url_of w url page_link]).
Proof.
  intros Hvisit. unfold detail_urls, page_url_of. cbn [map List.filter].
  destruct (attrs page_link !! "href") as [href|] eqn:Hhref;
    [|rewrite visit_without_href in Hvisit by exact Hhref; discriminate].
  change (default "" (Some href)) with href.
  destruct (urljoin w url href) as [e|page_url] eqn:Hjoin.
  { exfalso. revert Hvisit. unfold visit, bind, lift, getitem.
    rewrite Hhref, Hjoin. discriminate. }
  assert (Hres : resolvable w url page_link)
    by (exists href, page_url; split; assumption).
  destruct (contains program_page page_url) eqn:Hpage.
  - destruct (requests_get w (trace st ++ [Log INFO (Parsing page_url)]) page_url)
      as [e|content] eqn:Hget.
    + exfalso. revert Hvisit. unfold visit, bind, lift, getitem, log, http_get.
      rewrite Hhref, Hjoin, Hpage. cbn [emit trace]. rewrite Hget. discriminate.
    + rewrite (visit_extract w url page_link programs st href page_url content
                 Hhref Hjoin Hpage Hget) in Hvisit.
      destruct (extract w page_url (BeautifulSoup w content)) as [e|p] eqn:Hp;
        [discriminate|].
      assert (Hnone : date p = None)
        by (apply extract_ok_inv in Hp as [_ ->]; reflexivity).
      clear Hp. destruct (incomplete p) eqn:Hinc.
      * injection Hvisit as <- <-. eexists. split; [reflexivity|].
        split; [exact Hres|]. split; [reflexivity|]. left. reflexivity.
      * destruct (incomplete_false _ Hinc) as (Ht & Hd & Hl).
        destruct (date_search (link p)) as [groups|] eqn:Hdate;
          injection Hvisit as <- <-.
        -- eexists. split; [reflexivity|]. split; [exact Hres|]. split; [reflexivity|].
           right. eexists. split; [reflexivity|]. split; [|reflexivity].
           unfold well_formed_record, set_date. cbn [title description link date].
           rewrite Hdate. auto.
        -- eexists. split; [reflexivity|]. split; [exact Hres|]. split; [reflexivity|].
           right. eexists. split; [reflexivity|]. split; [|reflexivity].
           unfold well_formed_record. rewrite Hdate, Hnone. auto.
  - revert Hvisit. unfold visit, bind, lift, getitem. rewrite Hhref, Hjoin, Hpage.
    intros [= <- <-]. exists []. rewrite emits_nil. split; [reflexivity|].
    split; [exact Hres|]. split; [reflexivity|]. left. reflexivity.
Qed.

Lemma detail_urls_cons (w : World) (url : string) (page_link : Tag) (rest : list Tag) :
  detail_urls w url (page_link :: rest)
  = detail_urls w url [page_link] ++ detail_urls w url rest.
Proof.
  unfold detail_urls. cbn [map List.filter].
  destruct (contains program_page (page_url_of w url page_link)); reflexivity.
Qed.

(** A loop that returns normally: its effects, the URLs it requested and
    the programs it appended. *)
Lemma visit_all_ok (w : World) (url : string) (page_links : list Tag)
    (programs programs' : list program) (st st' : state) :
  visit_all w url page_links programs st = (ok programs', st') ->
  exists evs added,
    st' = emits evs st
    /\ Forall (resolvable w url) page_links
    /\ requested evs = detail_urls w url page_links
    /\ programs' = programs ++ added
    /\ Forall well_formed_record added
    /\ (length added <= length (detail_urls w url page_links))%nat.
Proof.
  revert programs st. induction page_links as [|page_link rest IH]; intros programs st.
  - intros [= <- <-]. exists [], []. rewrite emits_nil, app_nil_r.
    repeat split; constructor.
  - cbn [visit_all]. unfold bind.
    destruct (visit w url page_link programs st) as [[e|programs1] st1] eqn:Hvisit;
      [discriminate|].
    intros Hrest.
    destruct (visit_ok _ _ _ _ _ _ _ Hvisit) as (evs1 & -> & Hhref & Hreq1 & Hadd1).
    destruct (IH _ _ Hrest) as (evs2 & added2 & -> & Hhrefs & Hreq2 & -> & Hwf2 & Hlen2).
    rewrite detail_urls_cons, emits_emits.
    destruct Hadd1 as [->|(p & -> & Hwf & Hone)].
    + exists (evs1 ++ evs2), added2. split; [reflexivity|].
      split; [constructor; assumption|].
      split; [rewrite requested_app, Hreq1, Hreq2; reflexivity|].
      split; [reflexivity|]. split; [exact Hwf2|].
      rewrite length_app. lia.
    + exists (evs1 ++ evs2), (p :: added2). split; [reflexivity|].
      split; [constructor; assumption|].
      split; [rewrite requested_app, Hreq1, Hreq2; reflexivity|].
      split; [rewrite <- app_assoc; reflexivity|].
      split; [constructor; assumption|].
      rewrite Hone, length_app. cbn [length]. lia.
Qed.

(** A call of [get_programs] that returns normally. *)
Lemma get_programs_ok (w : World) (url : string) (programs : list program)
    (st st' : state) :
  get_programs w url st = (ok programs, st') ->
  exists content evs unsorted,
    requests_get w (trace st) url = ok content
    /\ st' = emits ([Get url None] ++ evs
                    ++ [Log INFO (ProgramsFetched (length programs))]) st
    /\ Forall (resolvable w url) (find_all (BeautifulSoup w content) "a")
    /\ requested evs = detail_urls w url (find_all (BeautifulSoup w content) "a")
    /\ sorted_by_date_reverse unsorted = ok programs
    /\ Permutation programs unsorted
    /\ Forall well_formed_record unsorted
    /\ (length unsorted
        <= length (detail_urls w url (find_all (BeautifulSoup w content) "a")))%nat.
Proof.
  unfold get_programs, bind, http_get, log, lift.
  destruct (requests_get w (trace st) url) as [e|content] eqn:Hget; [discriminate|].
  destruct (visit_all w url (find_all (BeautifulSoup w content) "a") []
              (emit (Get url None) st)) as [[e|unsorted] st1] eqn:Hloop; [discriminate|].
  intros Hsorted. injection Hsorted as Hsorted <-.
  destruct (visit_all_ok _ _ _ _ _ _ _ Hloop)
    as (evs & added & -> & Hhrefs & Hreq & Hadded & Hwf & Hlen).
  cbn [app] in Hadded. subst added.
  assert (Hperm : Permutation programs unsorted).
  { destruct (sorted_by_date_reverse_cases unsorted) as [H|(out & H & Hperm & _)];
      rewrite H in Hsorted; [discriminate|]. injection Hsorted as <-. exact Hperm. }
  exists content, evs, unsorted. split; [reflexivity|].
  split.
  - rewrite (Permutation_length Hperm), emit_emits, (emit_one _ st), emits_emits.
    reflexivity.
  - repeat split; assumption.
Qed.

(** X4.  When [get_programs] returns a list, every anchor of the listing
    page has an href, which [urljoin] resolves, and the requests made are
    that of the listing page and then, once each and in the order of the
    anchors, those of the URLs that contain the marker of a detail page,
    duplicates included, and nothing else; no file has been written, the
    last effect is the log of the number of records, and there are at most
    as many records as detail links. *)
Theorem one_request_per_detail_link (w : World) (url : string)
    (programs : list program) (st st' : state) :
  get_programs w url st = (ok programs, st') ->
  exists content evs,
    requests_get w (trace st) url = ok content
    /\ trace st' = trace st ++ evs
    /\ files st' = files st
    /\ Forall (fun a => is_Some (attrs a !! "href"))
         (find_all (BeautifulSoup w content) "a")
    /\ Forall (resolvable w url) (find_all (BeautifulSoup w content) "a")
    /\ requested evs = url :: detail_urls w url (find_all (BeautifulSoup w content) "a")
    /\ last evs = Some (Log INFO (ProgramsFetched (length programs)))
    /\ (length programs
        <= length (detail_urls w url (find_all (BeautifulSoup w content) "a")))%nat.
Proof.
  intros H.
  destruct (get_programs_ok _ _ _ _ _ H)
    as (content & evs & unsorted & Hget & -> & Hhrefs & Hreq & _ & Hperm & _ & Hlen).
  exists content. eexists. split; [exact Hget|]. split; [reflexivity|].
  split; [reflexivity|]. split.
  { apply (List.Forall_impl _ (P := resolvable w url)); [|exact Hhrefs].
    intros a (href & _ & Hhref & _). rewrite Hhref. eauto. }
  split; [exact Hhrefs|]. split; [|split].
  - cbn [app requested]. rewrite requested_app, Hreq. cbn [requested].
    rewrite app_nil_r. reflexivity.
  - rewrite app_assoc. apply last_snoc.
  - rewrite (Permutation_length Hperm). exact Hlen.
Qed.

Lemma one_request_per_detail_link_witness :
  exists programs st',
    get_programs site1 "http://h/liste.php" st0 = (ok programs, st')
    /\ exists evs,
         trace st' = trace st0 ++ evs
         /\ requested evs = ["http://h/liste.php"; "http://h/detail_emission.php?id=1";
                             "http://h/detail_emission.php?id=2";
                             "http://h/detail_emission.php?id=3"].
Proof.
  destruct (get_programs site1 "http://h/liste.php" st0) as [[e|programs] st'] eqn:H.
  - vm_compute in H. discriminate.
  - exists programs, st'. split; [reflexivity|].
    destruct (one_request_per_detail_link _ _ _ _ _ H)
      as (content & evs & Hget & Htrace & _ & _ & _ & Hreq & _).
    exists evs. split; [exact Htrace|].
    vm_compute in Hget. injection Hget as <-. exact Hreq.
Defined.

(** X5.  Every record that [get_programs] returns has a title, a
    description and a link that are not empty, and its date is the one the
    date pattern reads in its link: absent exactly when the pattern does
    not match. *)
Theorem returned_records_are_well_formed (w : World) (url : string)
    (programs : list program) (st st' : state) :
  get_programs w url st = (ok programs, st') ->
  Forall well_formed_record programs.
Proof.
  intros H.
  destruct (get_programs_ok _ _ _ _ _ H)
    as (_ & _ & unsorted & _ & _ & _ & _ & _ & Hperm & Hwf & _).
  rewrite Hperm. exact Hwf.
Qed.

Lemma returned_records_are_well_formed_witness :
  exists programs st',
    get_programs site1 "http://h/liste.php" st0 = (ok programs, st')
    /\ length programs = 2%nat
    /\ Forall well_formed_record programs.
Proof.
  destruct (get_programs site1 "http://h/liste.php" st0) as [[e|programs] st'] eqn:H.
  - vm_compute in H. discriminate.
  - exists programs, st'. split; [reflexivity|].
    split; [|exact (returned_records_are_well_formed _ _ _ _ _ H)].
    vm_compute in H. injection H as <- _. reflexivity.
Defined.

(** The records of a list of two or more that [get_programs] returns all
    have a date, which is a text [YYYY-MM-DD]. *)
Lemma get_programs_dated (w : World) (url : string)
    (programs : list program) (st st' : state) :
  get_programs w url st = (ok programs, st') ->
  (2 <= length programs)%nat ->
  Forall has_date_text programs.
Proof.
  intros H Hlen.
  destruct (get_programs_ok _ _ _ _ _ H)
    as (_ & _ & unsorted & _ & _ & _ & _ & Hsorted & Hperm & Hwf & _).
  rewrite Hperm. rewrite (Permutation_length Hperm) in Hlen.
  destruct (sorted_by_date_reverse_cases unsorted) as [Hthrow|(out & _ & _ & Hdated)];
    [rewrite Hthrow in Hsorted; discriminate|].
  specialize (Hdated Hlen).
  rewrite List.Forall_forall in *. intros p Hp.
  destruct (Hwf p Hp) as (_ & _ & _ & Hdate). specialize (Hdated p Hp).
  unfold dated in Hdated. unfold has_date_text.
  destruct (date_search (link p)) as [groups|] eqn:Hsearch; cbn in Hdate;
    [|congruence].
  exists (join "-" groups). split; [exact Hdate|].
  exact (date_search_is_date_text _ _ Hsearch).
Qed.

(** X6.  [get_programs] never returns two records or more with an
    undated one among them: in a list of two or more that it returns, every
    record has a date of the form [YYYY-MM-DD].  (An undated record is
    returned only alone; with another record the sort raises.) *)
Theorem several_records_are_all_dated (w : World) (url : string)
    (programs : list program) (st st' : state) :
  get_programs w url st = (ok programs, st') ->
  (2 <= length programs)%nat ->
  Forall (fun p => exists d, date p = Some d /\ is_date_text d) programs.
Proof. exact (get_programs_dated w url programs st st'). Qed.

Lemma several_records_are_all_dated_witness :
  exists programs st',
    get_programs site1 "http://h/liste.php" st0 = (ok programs, st')
    /\ Forall (fun p => exists d, date p = Some d /\ is_date_text d) programs.
Proof.
  destruct (get_programs site1 "http://h/liste.php" st0) as [[e|programs] st'] eqn:H.
  - vm_compute in H. discriminate.
  - exists programs, st'. split; [reflexivity|].
    apply (several_records_are_all_dated _ _ _ _ _ H).
    vm_compute in H. injection H as <- _. cbn. lia.
Defined.

Lemma not_older_trans : Transitive not_older.
Proof.
  intros p q r (Hp & Hq & Hpq) (_ & Hr & Hqr). split; [exact Hp|]. split; [exact Hr|].
  destruct Hp as (a & Ha & _), Hq as (b & Hb & _), Hr as (c & Hc & _).
  unfold more_recent in *. rewrite Ha, Hb, Hc in *.
  destruct (ymd_of a) as [[y m] d], (ymd_of b) as [[y' m'] d'],
    (ymd_of c) as [[y'' m''] d''].
  unfold chronologically_before in *. lia.
Qed.

Lemma Sorted_not_older (l : list program) :
  Forall has_date_text l -> Sorted not_before l -> Sorted not_older l.
Proof.
  intros Htext Hs. induction Hs as [|p l Hs IH Hhd]; [constructor|].
  apply Forall_cons_1 in Htext as [Hp Hl].
  constructor; [exact (IH Hl)|].
  destruct Hhd as [|q l Hpq]; constructor.
  apply Forall_cons_1 in Hl as [Hq _].
  split; [exact Hp|]. split; [exact Hq|].
  destruct Hp as (a & Ha & Hta), Hq as (b & Hb & Htb).
  unfold not_before in Hpq. unfold more_recent. rewrite Ha, Hb in *.
  cbn in Hpq. injection Hpq as Hlt. intros Hbefore.
  apply (ltb_date_text a b Hta Htb) in Hbefore. congruence.
Qed.

(** X7.  The list that [get_programs] returns is in order also when
    dates repeat: no record stands before one that is dated after it. *)
Theorem returned_records_are_ordered (w : World) (url : string)
    (programs : list program) (st st' : state) :
  get_programs w url st = (ok programs, st') ->
  (2 <= length programs)%nat ->
  StronglySorted not_older programs.
Proof.
  intros H Hlen. pose proof (get_programs_dated _ _ _ _ _ H Hlen) as Htext.
  destruct (get_programs_ok _ _ _ _ _ H)
    as (_ & _ & unsorted & _ & _ & _ & _ & Hsorted & Hperm & _ & _).
  assert (Hdated : Forall dated unsorted).
  { rewrite <- Hperm. eapply Forall_impl; [exact Htext|].
    intros p (d & Hd & _). unfold dated. congruence. }
  destruct (sorted_by_date_reverse_ok unsorted Hdated) as (out & Hout & _ & Hs).
  rewrite Hout in Hsorted. injection Hsorted as ->.
  apply (Sorted_StronglySorted not_older_trans).
  apply Sorted_not_older; assumption.
Qed.

Lemma returned_records_are_ordered_witness :
  exists programs st',
    get_programs site1 "http://h/liste.php" st0 = (ok programs, st')
    /\ StronglySorted not_older programs.
Proof.
  destruct (get_programs site1 "http://h/liste.php" st0) as [[e|programs] st'] eqn:H.
  - vm_compute in H. discriminate.
  - exists programs, st'. split; [reflexivity|].
    apply (returned_records_are_ordered _ _ _ _ _ H).
    vm_compute in H. injection H as <- _. cbn. lia.
Defined.

(** X8.  One file name without a date among several records loses them
    all: when the loop over the links has gathered two records or more and
    one of them is undated, [get_programs] raises the TypeError of the
    comparison of None, after the log of the number of records, and
    returns no list. *)
Theorem undated_record_among_several_raises (w : World) (url : string)
    (st st1 : state) (content : string) (unsorted : list program) :
  requests_get w (trace st) url = ok content ->
  visit_all w url (find_all (BeautifulSoup w content) "a") [] (emit (Get url None) st)
    = (ok unsorted, st1) ->
  (2 <= length unsorted)%nat ->
  (exists p, In p unsorted /\ date p = None) ->
  get_programs w url st
  = (throw TypeError_lt, emit (Log INFO (ProgramsFetched (length unsorted))) st1).
Proof.
  intros Hget Hloop Hlen Hundated.
  unfold get_programs, bind, http_get, log, lift. rewrite Hget, Hloop.
  rewrite (sorted_by_date_reverse_undated unsorted Hlen Hundated). reflexivity.
Qed.

Lemma undated_record_among_several_raises_witness :
  exists st',
    get_programs site_undated "http://h/liste.php" st0 = (throw TypeError_lt, st')
    /\ last (trace st') = Some (Log INFO (ProgramsFetched 2)).
Proof.
  destruct (visit_all site_undated "http://h/liste.php"
              (find_all (BeautifulSoup site_undated "http://h/liste.php") "a") []
              (emit (Get "http://h/liste.php" None) st0))
    as [[e|unsorted] st1] eqn:Hloop.
  - vm_compute in Hloop. discriminate.
  - pose proof (undated_record_among_several_raises site_undated "http://h/liste.php"
                  st0 st1 "http://h/liste.php" unsorted eq_refl Hloop) as H.
    vm_compute in Hloop. injection Hloop as <- <-.
    eexists. split.
    + apply H; [cbn; lia|]. exists undated_item. split; [cbn; tauto|reflexivity].
    + reflexivity.
Defined.

(** ** The two patterns, in full *)

(** X9.  The date pattern matches exactly the strings that end in
    [_YYYY_MM_DD.mp3], eight digits and the extension in any case,
    possibly followed by one line feed; the groups are the digits of the
    year, the month and the day.  Nothing asks that they name a day of the
    calendar. *)
Theorem date_pattern_matches_exactly (s : string) (groups : list string) :
  date_search s = Some groups <->
  exists (pre tail : string) (y1 y2 y3 y4 m1 m2 d1 d2 e1 e2 : ascii),
    s = pre +:+ string_of_list_ascii
          ["_"; y1; y2; y3; y4; "_"; m1; m2; "_"; d1; d2; "."; e1; e2; "3"]%char
        +:+ tail
    /\ (tail = "" \/ tail = String newline "")
    /\ is_digit y1 = true /\ is_digit y2 = true
    /\ is_digit y3 = true /\ is_digit y4 = true
    /\ is_digit m1 = true /\ is_digit m2 = true
    /\ is_digit d1 = true /\ is_digit d2 = true
    /\ (e1 = "m" \/ e1 = "M")%char /\ (e2 = "p" \/ e2 = "P")%char
    /\ groups = [string_of_list_ascii [y1; y2; y3; y4];
                 string_of_list_ascii [m1; m2];
                 string_of_list_ascii [d1; d2]].
Proof.
  split.
  - unfold date_search.
    destruct (date_groups_backwards (backwards s)) as [g|] eqn:Hfirst.
    + intros [= <-].
      destruct (date_groups_backwards_inv _ _ Hfirst)
        as (y1 & y2 & y3 & y4 & m1 & m2 & d1 & d2 & e1 & e2 & r' & Hr & Hrest).
      exists (string_of_list_ascii (rev r')), "", y1, y2, y3, y4, m1, m2, d1, d2, e1, e2.
      split; [|split; [left; reflexivity|exact Hrest]].
      rewrite (backwards_inv _ _ Hr), rev_app_distr, rev_involutive.
      rewrite string_of_list_ascii_app, string_app_empty. reflexivity.
    + destruct (backwards s) as [|c r] eqn:Hs; [discriminate|].
      destruct (Ascii.eqb c newline) eqn:Hc; [|discriminate].
      apply Ascii.eqb_eq in Hc. subst c. intros Hsecond.
      destruct (date_groups_backwards_inv _ _ Hsecond)
        as (y1 & y2 & y3 & y4 & m1 & m2 & d1 & d2 & e1 & e2 & r' & -> & Hrest).
      exists (string_of_list_ascii (rev r')), (String newline ""),
        y1, y2, y3, y4, m1, m2, d1, d2, e1, e2.
      split; [|split; [right; reflexivity|exact Hrest]].
      rewrite (backwards_inv _ _ Hs).
      change (newline :: rev ["_"; y1; y2; y3; y4; "_"; m1; m2; "_"; d1; d2; ".";
                              e1; e2; "3"]%char ++ r')
        with (rev ["_"; y1; y2; y3; y4; "_"; m1; m2; "_"; d1; d2; "."; e1; e2; "3";
                   newline]%char ++ r').
      rewrite rev_app_distr, rev_involutive, string_of_list_ascii_app. reflexivity.
  - intros (pre & tail & y1 & y2 & y3 & y4 & m1 & m2 & d1 & d2 & e1 & e2
            & -> & Htail & Hy1 & Hy2 & Hy3 & Hy4 & Hm1 & Hm2 & Hd1 & Hd2
            & He1 & He2 & ->).
    assert (He1' : eqb_ignorecase e1 "m" = true) by (destruct He1; subst; reflexivity).
    assert (He2' : eqb_ignorecase e2 "p" = true) by (destruct He2; subst; reflexivity).
    destruct Htail; subst tail.
    + rewrite string_app_empty. apply date_search_dated; assumption.
    + apply (date_search_dated_newline pre); assumption.
Qed.

Lemma date_pattern_matches_exactly_witness :
  exists pre tail,
    "http://h/x_2023_13_45.MP3" = pre +:+ "_2023_13_45.MP3" +:+ tail
    /\ (tail = "" \/ tail = String newline "").
Proof.
  destruct (proj1 (date_pattern_matches_exactly "http://h/x_2023_13_45.MP3"
                     ["2023"; "13"; "45"]) eq_refl)
    as (pre & tail & y1 & y2 & y3 & y4 & m1 & m2 & d1 & d2 & e1 & e2
        & Hs & Htail & _ & _ & _ & _ & _ & _ & _ & _ & He1 & He2 & Hgroups).
  injection Hgroups as <- <- <- <- <- <- <- <-.
  exists pre, tail. split; [|exact Htail].
  destruct Htail; subst tail.
  - destruct He1 as [->| ->], He2 as [->| ->]; first [exact Hs|exfalso].
    all: apply (f_equal backwards) in Hs; rewrite backwards_app in Hs;
      vm_compute in Hs; discriminate.
  - exfalso. apply (f_equal backwards) in Hs.
    rewrite backwards_app, backwards_app in Hs. vm_compute in Hs. discriminate.
Defined.

(** X10.  The link pattern asks for no dot and no file name: an href is
    taken as the audio link exactly when its last three characters are the
    lower-case letters [mp3], or when these come just before a line feed
    that ends it. *)
Theorem link_pattern_matches_exactly (href : string) :
  link_regex_search href = true <->
  exists pre, href = pre +:+ "mp3"
              \/ href = pre +:+ string_of_list_ascii ["m"; "p"; "3"; newline]%char.
Proof.
  split; [apply link_regex_search_inv|].
  intros (pre & [-> | ->]); unfold link_regex_search; rewrite backwards_app.
  - change (backwards "mp3") with ["3"; "p"; "m"]%char. reflexivity.
  - rewrite backwards_of_list. cbn [rev app].
    change (backwards "mp3") with ["3"; "p"; "m"]%char.
    cbn [starts_with]. rewrite !Ascii.eqb_refl.
    destruct (Ascii.eqb newline "3"); reflexivity.
Qed.

Lemma link_pattern_matches_exactly_witness :
  link_regex_search "episodes?format=mp3" = true
  /\ exists pre, "episodes?format=mp3" = pre +:+ "mp3"
                 \/ "episodes?format=mp3"
                    = pre +:+ string_of_list_ascii ["m"; "p"; "3"; newline]%char.
Proof.
  split; [reflexivity|].
  apply (proj1 (link_pattern_matches_exactly "episodes?format=mp3")). reflexivity.
Defined.

(** ** Dates that are not days of the calendar *)

Lemma re_month_two_digits_invalid {R} (m : Z) (r : list ascii)
    (K : Z -> list ascii -> option R) :
  0 <= m <= 99 -> ~ 1 <= m <= 12 ->
  re_month (two_digits m ++ "-"%char :: r)
    (fun m r => match r with
                | dash :: r => if Ascii.eqb dash "-" then K m r else None
                | [] => None
                end)
  = None.
Proof.
  intros H Hout. assert (Hm : 0 <= m < 0 + Z.of_nat 100) by lia.
  each_in_range Hm 0 100%nat; try lia; reflexivity.
Qed.

Lemma re_day_two_digits_invalid (y m d : Z) :
  0 <= d <= 99 -> ~ 1 <= d <= 31 ->
  re_day (two_digits d) (fun d r => Some (y, m, d, r)) = None
  \/ exists d' c r', re_day (two_digits d) (fun d r => Some (y, m, d, r))
                     = Some (y, m, d', c :: r').
Proof.
  intros H Hout. assert (Hd : 0 <= d < 0 + Z.of_nat 100) by lia.
  each_in_range Hd 0 100%nat; try lia;
    first [left; reflexivity | right; eexists _, _, _; reflexivity].
Qed.

Lemma calendar_date_dec (y m d : Z) : calendar_date y m d \/ ~ calendar_date y m d.
Proof. unfold calendar_date. lia. Qed.

(** On the text of numbers that are not a day of the calendar, [strptime]
    raises ValueError. *)
Lemma strptime_isoformat_invalid (y m d : Z) :
  0 <= y <= 9999 -> 0 <= m <= 99 -> 0 <= d <= 99 ->
  ~ calendar_date y m d ->
  strptime (Some (isoformat y m d)) = throw (ValueError_strptime (isoformat y m d)).
Proof.
  intros Hy Hm Hd Hnot.
  destruct (four_digits_value y Hy) as (H1 & H2 & H3 & H4 & Hval).
  unfold strptime. remember (isoformat y m d) as s eqn:Hs.
  rewrite Hs at 1. unfold isoformat. rewrite list_ascii_of_string_of_list_ascii.
  unfold four_digits. cbn [app]. unfold strptime_match.
  rewrite !is_digit_digit_char, !digit_value_digit_char by assumption.
  rewrite Hval. cbn [andb]. change (Ascii.eqb "-" "-") with true. cbv iota.
  destruct (Z_le_dec 1 m) as [Hm1|Hm1]; [destruct (Z_le_dec m 12) as [Hm2|Hm2]|];
    try (rewrite (re_month_two_digits_invalid m _
                    (fun m r => re_day r (fun d r => Some (y, m, d, r))))
           by lia; reflexivity).
  rewrite (re_month_two_digits m _
             (fun m r => re_day r (fun d r => Some (y, m, d, r)))) by lia.
  destruct (Z_le_dec 1 d) as [Hd1|Hd1]; [destruct (Z_le_dec d 31) as [Hd2|Hd2]|].
  - rewrite (re_day_two_digits d (fun d r => Some (y, m, d, r)))
      by (try discriminate; lia).
    destruct ((1 <=? y) && (d <=? days_in_month y m)) eqn:Hok; [|reflexivity].
    exfalso. apply andb_prop in Hok as [Hy1 Hdim].
    apply Z.leb_le in Hy1, Hdim. apply Hnot. unfold calendar_date. lia.
  - destruct (re_day_two_digits_invalid y m d Hd ltac:(lia))
      as [->|(d' & c & r' & ->)]; reflexivity.
  - destruct (re_day_two_digits_invalid y m d Hd ltac:(lia))
      as [->|(d' & c & r' & ->)]; reflexivity.
Qed.

Lemma build_items_digits (items : list program) (days : list (Z * Z * Z))
    (rss_items : list RSSItem) :
  Forall2 has_digits_of items days ->
  (exists out, build_items items rss_items = ok out) <-> Forall is_calendar_day days.
Proof.
  intros H. revert rss_items.
  induction H as [|item [[y m] d] items days (Hdate & Hy & Hm & Hd) _ IH];
    intros rss_items.
  - split; [intros _; apply List.Forall_nil|]. intros _. eexists. reflexivity.
  - cbn [build_items]. rewrite Hdate.
    destruct (calendar_date_dec y m d) as [Hcal|Hnot].
    + rewrite (strptime_isoformat y m d Hcal). cbn [rbind]. rewrite IH.
      split; [intros Hrest; constructor; assumption|].
      intros Hall. apply Forall_cons_1 in Hall as [_ Hrest]. exact Hrest.
    + rewrite (strptime_isoformat_invalid y m d Hy Hm Hd Hnot). cbn [rbind].
      split; [intros (out & Hout); discriminate|].
      intros Hall. apply Forall_cons_1 in Hall as [Hcal _]. contradiction.
Qed.

(** An exception of [build_items] is one of the parsing of a
    timestamp. *)
Lemma build_items_raises (items : list program) (rss_items : list RSSItem) (e : exn) :
  build_items items rss_items = throw e -> raised_by_strptime e.
Proof.
  revert rss_items. induction items as [|item items IH]; intros rss_items H;
    [discriminate|].
  cbn [build_items] in H.
  destruct (strptime (date item)) as [e'|dt] eqn:Hdate.
  - injection H as <-. exact (strptime_raises _ _ Hdate).
  - exact (IH _ H).
Qed.

(** X11.  For records whose dates are texts [YYYY-MM-DD], as the date
    pattern gives them: when [build_rss_feed] returns normally, every date
    names a day of the calendar, a year from 1, a month from 1 to 12 and a
    day that the month has in that year; when a date does not, the call
    raises an exception of the parsing of a timestamp and has no effect;
    and when the output path can be opened and the serializer does not
    raise, the call returns normally exactly when every date names a day of
    the calendar. *)
Theorem feed_is_written_iff_calendar_dates (w : World)
    (feed_title feed_link feed_description : string)
    (items : list program) (days : list (Z * Z * Z)) (filename : string) (st : state) :
  Forall2 has_digits_of items days ->
  (fst (build_rss_feed w feed_title feed_link feed_description items filename st) = ok tt ->
   Forall is_calendar_day days)
  /\ (~ Forall is_calendar_day days ->
      exists e,
        build_rss_feed w feed_title feed_link feed_description items filename st
          = (throw e, st)
        /\ raised_by_strptime e)
  /\ (open_error w filename = None ->
      (forall rss, snd (write_xml w rss) = None) ->
      (fst (build_rss_feed w feed_title feed_link feed_description items filename st)
         = ok tt
       <-> Forall is_calendar_day days)).
Proof.
  intros H. rewrite <- (build_items_digits items days [] H).
  unfold build_rss_feed, bind, lift.
  destruct (build_items items []) as [e|out] eqn:Hitems; cbn [fst].
  - split; [discriminate|]. split.
    + intros _. exists e. split; [reflexivity|exact (build_items_raises _ _ _ Hitems)].
    + intros _ _. split; [discriminate|]. intros (out & Hout). discriminate.
  - split; [intros _; eexists; reflexivity|]. split.
    + intros Hnot. destruct Hnot. eexists. reflexivity.
    + intros Hopen Hxml. rewrite write_file_spec, Hopen, Hxml.
      split; [intros _; eexists|]; reflexivity.
Qed.

Ltac has_digits := unfold has_digits_of; split; [reflexivity|lia].

Ltac calendar_day :=
  unfold is_calendar_day, calendar_date; repeat split; vm_compute; discriminate.

Lemma feed_is_written_iff_calendar_dates_witness :
  fst (build_rss_feed site1 "T" "U" "D"
         [dated_item; set_date dated_item (Some "2024-02-29")] "o.xml" st0) = ok tt
  /\ fst (build_rss_feed site1 "T" "U" "D"
            [dated_item; set_date dated_item (Some "2023-02-29")] "o.xml" st0) <> ok tt.
Proof.
  split.
  - destruct (feed_is_written_iff_calendar_dates site1 "T" "U" "D"
                [dated_item; set_date dated_item (Some "2024-02-29")]
                [(2023, 7, 4); (2024, 2, 29)] "o.xml" st0
                ltac:(constructor; [has_digits|constructor; [has_digits|constructor]]))
      as (_ & _ & Hiff).
    apply (Hiff eq_refl (fun _ => eq_refl)).
    constructor; [calendar_day|constructor; [calendar_day|constructor]].
  - intros Hok.
    apply (proj1 (feed_is_written_iff_calendar_dates site1 "T" "U" "D"
                    [dated_item; set_date dated_item (Some "2023-02-29")]
                    [(2023, 7, 4); (2023, 2, 29)] "o.xml" st0
                    ltac:(constructor; [has_digits|constructor; [has_digits|constructor]])))
      in Hok.
    apply Forall_cons_1 in Hok as [_ Hok]. apply Forall_cons_1 in Hok as [Hcal _].
    destruct Hcal as (_ & _ & _ & Hday). vm_compute in Hday. apply Hday. reflexivity.
Defined.

(** ** From the file name to the publication date *)

Lemma date_search_calendar (pre : string) (y m d : Z) :
  0 <= y <= 9999 -> 0 <= m <= 99 -> 0 <= d <= 99 ->
  option_map (join "-")
    (date_search (pre +:+ string_of_list_ascii
       ("_"%char :: four_digits y ++ "_"%char :: two_digits m ++ "_"%char :: two_digits d
        ++ ["."; "m"; "p"; "3"]%char)))
  = Some (isoformat y m d).
Proof.
  intros Hy Hm Hd.
  destruct (four_digits_value y Hy) as (? & ? & ? & ? & _).
  destruct (two_digits_value m Hm) as (? & ? & _).
  destruct (two_digits_value d Hd) as (? & ? & _).
  unfold four_digits, two_digits. cbn [app].
  rewrite date_search_dated by (first [apply is_digit_digit_char; assumption|reflexivity]).
  reflexivity.
Qed.

(** X12.  A complete record whose link ends in [_YYYY_MM_DD.mp3], the
    digits being those of a day of the calendar, is published on that
    day: its date is the text [YYYY-MM-DD] and the feed that
    [build_rss_feed] gives to the serializer has for it an entry whose
    publication date is the midnight of that day.  When the output path
    cannot be opened the call raises the exception of [open] and has no
    effect; otherwise the file holds what the serializer wrote, and the
    call raises if the serializer did. *)
Theorem publication_date_is_read_from_the_file_name (w : World)
    (feed_title feed_link feed_description filename : string) (st : state)
    (p : program) (pre : string) (y m d : Z) :
  well_formed_record p ->
  calendar_date y m d ->
  link p = pre +:+ string_of_list_ascii
             ("_"%char :: four_digits y ++ "_"%char :: two_digits m ++ "_"%char
              :: two_digits d ++ ["."; "m"; "p"; "3"]%char) ->
  date p = Some (isoformat y m d)
  /\ let rss := {| rss_title := feed_title;
                   rss_link := feed_link;
                   rss_description := feed_description;
                   rss_lastBuildDate := now w;
                   rss_items := [entry_of p (y, m, d)] |} in
     build_rss_feed w feed_title feed_link feed_description [p] filename st
     = match open_error w filename, snd (write_xml w rss) with
       | Some e, _ => (throw e, st)
       | None, Some e => (throw e, written filename (fst (write_xml w rss)) st)
       | None, None => (ok tt, written filename (fst (write_xml w rss)) st)
       end.
Proof.
  intros (_ & _ & _ & Hdate) Hcal Hlink.
  pose proof (days_in_month_le y m) as Hle.
  assert (Hiso : date p = Some (isoformat y m d)).
  { rewrite Hdate, Hlink. destruct Hcal as (? & ? & ?).
    apply date_search_calendar; lia. }
  split; [exact Hiso|]. cbv zeta.
  unfold build_rss_feed, bind, lift.
  rewrite (build_items_calendar [p] [(y, m, d)] []);
    [|constructor; [split; assumption|constructor]].
  apply write_file_spec.
Qed.

Lemma publication_date_is_read_from_the_file_name_witness :
  date dated_item = Some (isoformat 2023 7 4)
  /\ build_rss_feed site1 "T" "U" "D" [dated_item] "o.xml" st0
     = (ok tt, {| trace := [Write "o.xml" "T|three@http://h/x_2023_07_04.mp3"];
                  files := {[ "o.xml" := "T|three@http://h/x_2023_07_04.mp3" ]} |}).
Proof.
  destruct (publication_date_is_read_from_the_file_name site1 "T" "U" "D" "o.xml" st0
              dated_item "http://h/x" 2023 7 4) as [Hdate Hbuild].
  - repeat split; discriminate.
  - unfold calendar_date; repeat split; vm_compute; discriminate.
  - reflexivity.
  - split; [exact Hdate|]. rewrite Hbuild. reflexivity.
Defined.

(** ** What build_rss_feed writes *)

Lemma build_items_inv (items : list program) (rss_items out : list RSSItem) :
  build_items items rss_items = ok out ->
  exists entries, out = rss_items ++ entries /\ Forall2 entry_for items entries.
Proof.
  revert rss_items. induction items as [|item items IH]; intros rss_items H.
  - injection H as <-. exists []. rewrite app_nil_r. split; [reflexivity|constructor].
  - cbn [build_items] in H.
    destruct (strptime (date item)) as [e|item_date] eqn:Hdate; [discriminate|].
    cbn [rbind] in H. destruct (IH _ H) as (entries & -> & Hentries).
    exists (rss_item_of item item_date :: entries).
    split; [rewrite <- app_assoc; reflexivity|].
    constructor; [|exact Hentries].
    unfold entry_for, rss_item_of. cbn. auto.
Qed.

(** X13.  [build_rss_feed] touches the output file last.  Either it
    raises an exception of the parsing of a timestamp and has then had no
    effect: the file is neither created nor emptied.  Or every date has
    been parsed, and the feed has one entry for each record, in the same
    order, with the title, link and description of the record, its link as
    guid, and its parsed date: then the call raises the exception of [open]
    and has had no effect, or its single effect is the writing of
    [filename], which holds what the serializer wrote of that feed, and the
    call raises if the serializer did. *)
Theorem build_rss_feed_touches_the_file_last (w : World)
    (feed_title feed_link feed_description : string)
    (items : list program) (filename : string) (st : state) :
  (exists e,
     build_rss_feed w feed_title feed_link feed_description items filename st
       = (throw e, st)
     /\ raised_by_strptime e)
  \/ (exists entries,
        Forall2 entry_for items entries
        /\ let rss := {| rss_title := feed_title;
                         rss_link := feed_link;
                         rss_description := feed_description;
                         rss_lastBuildDate := now w;
                         rss_items := entries |} in
           build_rss_feed w feed_title feed_link feed_description items filename st
           = match open_error w filename, snd (write_xml w rss) with
             | Some e, _ => (throw e, st)
             | None, Some e => (throw e, written filename (fst (write_xml w rss)) st)
             | None, None => (ok tt, written filename (fst (write_xml w rss)) st)
             end).
Proof.
  unfold build_rss_feed, bind, lift.
  destruct (build_items items []) as [e|out] eqn:Hitems.
  - left. exists e. split; [reflexivity|exact (build_items_raises _ _ _ Hitems)].
  - right. destruct (build_items_inv _ _ _ Hitems) as (entries & -> & Hentries).
    exists entries. split; [exact Hentries|]. apply write_file_spec.
Qed.

(** ** How main ends *)

Section EmitsOnly.
Variable P : event -> Prop.

Lemma emits_only_silent {A} (c : M A) :
  (forall st, snd (c st) = st) -> emits_only P c.
Proof.
  intros H st. exists []. rewrite H, emits_nil. split; [reflexivity|constructor].
Qed.

Lemma emits_only_log (lvl : level) (msg : log_msg) :
  P (Log lvl msg) -> emits_only P (log lvl msg).
Proof.
  intros H st. exists [Log lvl msg]. split; [reflexivity|].
  constructor; [exact H|constructor].
Qed.

Lemma emits_only_http_get (w : World) (url : string) :
  (forall r, P (Get url r)) -> emits_only P (http_get w url).
Proof.
  intros H st. unfold http_get.
  destruct (requests_get w (trace st) url) as [e|page];
    eexists [_]; (split; [reflexivity|]); (constructor; [apply H|constructor]).
Qed.

Lemma emits_only_bind {A B} (c : M A) (k : A -> M B) :
  emits_only P c -> (forall a, emits_only P (k a)) -> emits_only P (bind c k).
Proof.
  intros Hc Hk st. destruct (Hc st) as (evs1 & Hst1 & HP1).
  unfold bind. destruct (c st) as [[e|a] st1]; cbn [snd] in *.
  - exists evs1. split; assumption.
  - destruct (Hk a st1) as (evs2 & Hst2 & HP2).
    exists (evs1 ++ evs2). split; [rewrite Hst2, Hst1; apply emits_emits|].
    apply Forall_app. split; assumption.
Qed.
End EmitsOnly.

Ltac quiet_step :=
  first [ apply emits_only_silent; reflexivity
        | apply emits_only_log; discriminate
        | apply emits_only_http_get; intros ?; exact I
        | apply emits_only_bind; [|intros ?]
        | match goal with
          | |- emits_only _ (if ?b then _ else _) => destruct b
          | |- emits_only _ (match ?x with Some _ => _ | None => _ end) => destruct x
          end ].

Lemma quiet_visit (w : World) (url : string) (page_link : Tag)
    (programs : list program) :
  emits_only quiet (visit w url page_link programs).
Proof. unfold visit. repeat (cbv zeta; quiet_step). Qed.

Lemma quiet_visit_all (w : World) (url : string) (page_links : list Tag)
    (programs : list program) :
  emits_only quiet (visit_all w url page_links programs).
Proof.
  revert programs. induction page_links as [|page_link rest IH]; intros programs.
  - apply emits_only_silent. reflexivity.
  - cbn [visit_all]. apply emits_only_bind; [apply quiet_visit|exact IH].
Qed.

Lemma quiet_get_programs (w : World) (url : string) :
  emits_only quiet (get_programs w url).
Proof.
  unfold get_programs.
  apply emits_only_bind; [apply emits_only_http_get; intros ?; exact I|intros content].
  cbv zeta. apply emits_only_bind; [apply quiet_visit_all|intros programs].
  repeat quiet_step.
Qed.

(** X14.  Whatever happens, [main] ends in one of three ways.  Its last
    effect is the writing of the feed, the only file it writes, and it has
    logged nothing at the critical level.  Or its last effect is the only
    log at the critical level, that of the exception that ended the run,
    and the files are as they were.  Or the serializer raised on the open
    file: the last two effects are the writing of what it wrote and the log
    of its exception at the critical level, and what the file held before
    is lost.  Before these effects there are only requests, information
    and warnings. *)
Theorem main_ends_in_one_of_three_ways (w : World)
    (environ config_file : gmap string string) (st : state) :
  exists before,
    Forall quiet before
    /\ ((exists filename content,
           main w environ config_file st
           = {| trace := trace st ++ before ++ [Write filename content];
                files := <[filename := content]> (files st) |})
        \/ (exists e,
              main w environ config_file st
              = {| trace := trace st ++ before ++ [Log CRITICAL (ErrorOccurred e)];
                   files := files st |})
        \/ (exists filename rss e,
              open_error w filename = None
              /\ snd (write_xml w rss) = Some e
              /\ main w environ config_file st
                 = {| trace := trace st ++ before
                               ++ [Write filename (fst (write_xml w rss));
                                   Log CRITICAL (ErrorOccurred e)];
                      files := <[filename := fst (write_xml w rss)]> (files st) |})).
Proof.
  assert (Hstop : forall (e : exn) (evs : list event) (st1 : state),
            st1 = emits evs st ->
            Forall quiet evs ->
            exists before,
              Forall quiet before
              /\ ((exists filename content,
                     emit (Log CRITICAL (ErrorOccurred e)) st1
                     = {| trace := trace st ++ before ++ [Write filename content];
                          files := <[filename := content]> (files st) |})
                  \/ (exists e',
                        emit (Log CRITICAL (ErrorOccurred e)) st1
                        = {| trace := trace st ++ before
                                      ++ [Log CRITICAL (ErrorOccurred e')];
                             files := files st |})
                  \/ (exists filename rss e',
                        open_error w filename = None
                        /\ snd (write_xml w rss) = Some e'
                        /\ emit (Log CRITICAL (ErrorOccurred e)) st1
                           = {| trace := trace st ++ before
                                         ++ [Write filename (fst (write_xml w rss));
                                             Log CRITICAL (ErrorOccurred e')];
                                files := <[filename := fst (write_xml w rss)]>
                                           (files st) |}))).
  { intros e evs st1 -> Hevs. exists evs. split; [exact Hevs|]. right. left. exists e.
    unfold emit, emits. cbn. rewrite <- app_assoc. reflexivity. }
  assert (Hnil : st = emits [] st) by (symmetry; apply emits_nil).
  unfold main, run, bind, lift.
  destruct (load_config environ config_file) as [e|config];
    [exact (Hstop e [] st Hnil (List.Forall_nil _))|].
  destruct (dict_get config "START_URL") as [e|start_url];
    [exact (Hstop e [] st Hnil (List.Forall_nil _))|].
  destruct (quiet_get_programs w start_url st) as (evs & Hst1 & Hquiet).
  destruct (get_programs w start_url st) as [[e|program_list] st1]; cbn [snd] in Hst1;
    [exact (Hstop e evs st1 Hst1 Hquiet)|].
  destruct (dict_get config "PROGRAM_TITLE") as [e|program_title];
    [exact (Hstop e evs st1 Hst1 Hquiet)|].
  destruct (dict_get config "PROGRAM_URL") as [e|program_url];
    [exact (Hstop e evs st1 Hst1 Hquiet)|].
  destruct (dict_get config "PROGRAM_DESC") as [e|program_desc];
    [exact (Hstop e evs st1 Hst1 Hquiet)|].
  destruct (dict_get config "OUTPUT_FILE") as [e|output_file];
    [exact (Hstop e evs st1 Hst1 Hquiet)|].
  unfold build_rss_feed, bind, lift.
  destruct (build_items program_list []) as [e|rss_items];
    [exact (Hstop e evs st1 Hst1 Hquiet)|].
  rewrite write_file_spec.
  destruct (open_error w output_file) as [e|] eqn:Hopen;
    [exact (Hstop e evs st1 Hst1 Hquiet)|].
  exists evs. split; [exact Hquiet|].
  destruct (snd (write_xml w _)) as [e|] eqn:Hxml.
  - right. right. eexists _, _, e. split; [exact Hopen|]. split; [exact Hxml|].
    subst st1. unfold emit, written, emits. cbn. rewrite <- !app_assoc. reflexivity.
  - left. eexists _, _. subst st1.
    unfold written, emits. cbn. rewrite <- app_assoc. reflexivity.
Qed.

(** X15.  The part of each configuration value in a run that succeeds:
    the listing page is fetched at START_URL; PROGRAM_TITLE, PROGRAM_URL and
    PROGRAM_DESC are the title, the link and the description of the feed;
    the feed is written to OUTPUT_FILE.  When [get_programs] returns records
    dated with days of the calendar, OUTPUT_FILE can be opened and the
    serializer does not raise, [main] adds one effect to those of
    [get_programs]: it writes to OUTPUT_FILE the feed of these records, in
    the order in which [get_programs] returned them. *)
Theorem main_writes_the_feed_of_the_configuration (w : World)
    (environ config_file : gmap string string) (config : dict)
    (start_url output_file program_title program_url program_desc : string)
    (items : list program) (days : list (Z * Z * Z)) (st st1 : state)
    (content : string) :
  load_config environ config_file = ok config ->
  dict_get config "START_URL" = ok start_url ->
  dict_get config "OUTPUT_FILE" = ok output_file ->
  dict_get config "PROGRAM_TITLE" = ok program_title ->
  dict_get config "PROGRAM_URL" = ok program_url ->
  dict_get config "PROGRAM_DESC" = ok program_desc ->
  get_programs w start_url st = (ok items, st1) ->
  Forall2 dated_on items days ->
  let rss := {| rss_title := program_title;
                rss_link := program_url;
                rss_description := program_desc;
                rss_lastBuildDate := now w;
                rss_items := zip_with entry_of items days |} in
  open_error w output_file = None ->
  write_xml w rss = (content, None) ->
  main w environ config_file st
  = {| trace := trace st1 ++ [Write output_file content];
       files := <[output_file := content]> (files st) |}.
Proof.
  intros Hconfig Hstart Hout Htitle Hurl Hdesc Hget Hdays rss Hopen Hxml.
  assert (Hfiles : files st1 = files st).
  { destruct (fetch_only_get_programs w start_url st) as (evs & Hst1 & _).
    rewrite Hget in Hst1. cbn [snd] in Hst1. rewrite Hst1. reflexivity. }
  unfold main, run, bind, lift.
  rewrite Hconfig, Hstart, Hget, Htitle, Hurl, Hdesc, Hout.
  unfold build_rss_feed, bind, lift.
  rewrite (build_items_calendar items days [] Hdays). cbn [app]. fold rss.
  rewrite write_file_spec, Hopen, Hxml. unfold written. rewrite Hfiles. reflexivity.
Qed.

Lemma main_writes_the_feed_of_the_configuration_witness :
  files (main site1 {[ "OUTPUT_FILE" := "feed.xml" ]} config1 st0) !! "feed.xml"
  = Some "T|three@http://h/x_2023_07_04.mp3|one@http://h/x_2023_01_01.mp3".
Proof.
  destruct (get_programs site1 "http://h/liste.php" st0) as [[e|items] st1] eqn:Hget.
  - vm_compute in Hget. discriminate.
  - pose proof (main_writes_the_feed_of_the_configuration site1
                  {[ "OUTPUT_FILE" := "feed.xml" ]} config1
                  [("START_URL", "http://h/liste.php"); ("OUTPUT_FILE", "feed.xml");
                   ("PROGRAM_TITLE", "T"); ("PROGRAM_URL", "U"); ("PROGRAM_DESC", "D")]
                  "http://h/liste.php" "feed.xml" "T" "U" "D"
                  items [(2023, 7, 4); (2023, 1, 1)] st0 st1
                  "T|three@http://h/x_2023_07_04.mp3|one@http://h/x_2023_01_01.mp3") as H.
    assert (Hitems : items = [dated_item; set_date (set_title (set_description
                        (set_link dated_item "http://h/x_2023_01_01.mp3") "first") "one")
                        (Some "2023-01-01")]).
    { vm_compute in Hget. injection Hget as <- _. reflexivity. }
    rewrite H.
    + apply lookup_insert_eq.
    + reflexivity.
    + reflexivity.
    + reflexivity.
    + reflexivity.
    + reflexivity.
    + reflexivity.
    + exact Hget.
    + rewrite Hitems.
      constructor; [|constructor; [|constructor]]; (split; [reflexivity|]);
        unfold calendar_date; repeat split; vm_compute; discriminate.
    + reflexivity.
    + rewrite Hitems. reflexivity.
Defined.

(** X16.  When [load_config] raises, [main] makes no request and writes
    nothing: its only effect is the log of that exception at the critical
    level. *)
Theorem configuration_error_stops_before_any_request (w : World)
    (environ config_file : gmap string string) (e : exn) (st : state) :
  load_config environ config_file = throw e ->
  main w environ config_file st
  = {| trace := trace st ++ [Log CRITICAL (ErrorOccurred e)]; files := files st |}.
Proof. intros H. unfold main, run, bind, lift. rewrite H. reflexivity. Qed.

Lemma configuration_error_stops_before_any_request_witness :
  main site1 ∅ (delete "START_URL" config1) st0
  = {| trace := [Log CRITICAL (ErrorOccurred (KeyError "START_URL"))]; files := ∅ |}.
Proof.
  apply (configuration_error_stops_before_any_request site1 ∅
           (delete "START_URL" config1) (KeyError "START_URL") st0).
  reflexivity.
Defined.

(** ** The extraction *)

(** X17.  The extraction of a record from a detail page raises in one
    place only, whatever the page contains: where [urljoin] refuses the
    href of the first anchor that the link pattern selects; the other
    lookups are guarded by the tests made before them.  Otherwise it
    returns a record.  The title and the description are the repaired
    texts of the first [div] with the id [titre] and of the first one with
    the id [emission]; the link is that href, made absolute; a part that
    the page lacks is the empty string, and the date is left absent. *)
Theorem extraction_raises_only_in_urljoin (w : World) (page_url : string)
    (soup_page : list Tag) :
  let found (p : program) :=
    title p = match head (find_all_attr soup_page "div" "id" (String.eqb "titre")) with
              | Some t => fix_encoding w (text t)
              | None => ""
              end
    /\ description p
       = match head (find_all_attr soup_page "div" "id" (String.eqb "emission")) with
         | Some t => fix_encoding w (text t)
         | None => ""
         end
    /\ date p = None in
  match head (find_all_attr soup_page "a" "href" link_regex_search) with
  | Some t =>
      exists href,
        attrs t !! "href" = Some href
        /\ link_regex_search href = true
        /\ match urljoin w page_url href with
           | inl e => extract w page_url soup_page = throw e
           | inr l =>
               exists p, extract w page_url soup_page = ok p /\ link p = l /\ found p
           end
  | None => exists p, extract w page_url soup_page = ok p /\ link p = "" /\ found p
  end.
Proof.
  intros found. rewrite extract_spec. unfold extraction, resolved_link, selected_href.
  unfold find_attr.
  destruct (head (find_all_attr soup_page "a" "href" link_regex_search)) as [t|] eqn:Ht.
  - destruct (find_attr_has_attr soup_page "a" "href" link_regex_search t Ht)
      as (href & Hhref & Hmatch).
    exists href. rewrite Hhref. split; [reflexivity|]. split; [exact Hmatch|].
    destruct (urljoin w page_url href) as [e|l]; [reflexivity|].
    eexists. split; [reflexivity|]. repeat split.
  - eexists. split; [reflexivity|]. repeat split.
Qed.
